(** * Report_App: the ETL pipeline of [app.py]

    A shallow embedding of the data-processing part of the Streamlit
    dashboard [src/app.py] (lines 29-67, 76-77, 92-111, 135, 140-141)
    together with the pandas / numpy / calendar / re operations it calls.

    Modelling conventions.
    - A DataFrame is a list of rows, in row order; a column operation is a
      map over the rows.  An operation that raises makes the whole script
      stop, which is modelled by the [result] monad below; an operation
      that looks at a whole column (the [.str] accessor, the cast to Int64,
      [.dt.month]) is modelled on the whole column.
    - Text cells are [option string] ([None] is a blank cell).  A [string]
      holds the UTF-8 encoding of the text; where Python looks at
      characters ([\d], [int], [float]) the model looks at the code points.
    - A float64 that arises in the script always holds a non-negative
      integer, NaN or infinity; it is modelled by [float64] over [Z] with
      the rounding of the decimal-to-double conversion written out.
    - What depends on the version of a library is a parameter: the decimal
      digits of Unicode outside ASCII, the resolution of a Timestamp, the
      [observed] default of a group-by.
    - [calendar.month_name] is the one of the default (C / English) locale. *)

From Stdlib Require Import List ZArith Lia Bool Ascii String OrderedTypeEx Sorted
  Permutation.
Import ListNotations.
Local Open Scope string_scope.
Local Open Scope Z_scope.

(** ** Exceptions and the error monad *)

Inductive exn : Type :=
| TypeError
| IndexError
| OverflowError
| AttributeError
| ValueError.

Inductive result (A : Type) : Type :=
| Ok (a : A)
| Raise (e : exn).

Arguments Ok {A} a.
Arguments Raise {A} e.

Definition bind {A B : Type} (m : result A) (k : A -> result B) : result B :=
  match m with
  | Ok a => k a
  | Raise e => Raise e
  end.

Notation "x <- m ;; k" := (bind m (fun x => k))
  (at level 61, m at next level, right associativity).

Fixpoint mapM {A B : Type} (f : A -> result B) (l : list A) : result (list B) :=
  match l with
  | [] => Ok []
  | a :: l' => b <- f a ;; bs <- mapM f l' ;; Ok (b :: bs)
  end.

(** ** Text *)

Definition byte_of (c : ascii) : Z := Z.of_nat (nat_of_ascii c).

(** What a first byte of UTF-8 starts: a code point of its own, or a
    sequence with one, two or three continuation bytes to come (the bits of
    the code point read so far, and the number of bytes to come). *)
Definition utf8_lead (b : Z) : Z + Z * nat :=
  if b <? 128 then inl b
  else if (194 <=? b) && (b <? 224) then inr (b - 192, 1%nat)
  else if (224 <=? b) && (b <? 240) then inr (b - 224, 2%nat)
  else if (240 <=? b) && (b <? 245) then inr (b - 240, 3%nat)
  else inl 65533.

(** The code points of a text, read off its UTF-8 encoding.  Bytes that are
    no UTF-8 (which no text has) are read as U+FFFD. *)
Fixpoint utf8_decode (pending : option (Z * nat)) (s : string) : list Z :=
  match s with
  | EmptyString =>
      match pending with
      | None => []
      | Some _ => [65533]
      end
  | String c s' =>
      let b := byte_of c in
      let start :=
        match utf8_lead b with
        | inl cp => cp :: utf8_decode None s'
        | inr p => utf8_decode (Some p) s'
        end in
      match pending with
      | None => start
      | Some (acc, n) =>
          if (128 <=? b) && (b <? 192)
          then match n with
               | S (S m) => utf8_decode (Some (acc * 64 + (b - 128), S m)) s'
               | _ => (acc * 64 + (b - 128)) :: utf8_decode None s'
               end
          else 65533 :: start
      end
  end.

Definition codepoints (s : string) : list Z := utf8_decode None s.

(** The string with the given bytes. *)
Definition utf8 (bytes : list Z) : string :=
  fold_right (fun b s => String (ascii_of_nat (Z.to_nat b)) s) EmptyString bytes.

(** [str.lower], on ASCII letters. *)
Definition lower_ascii (c : ascii) : ascii :=
  let n := nat_of_ascii c in
  if ((65 <=? n) && (n <=? 90))%nat then ascii_of_nat (n + 32) else c.

Fixpoint lower (s : string) : string :=
  match s with
  | EmptyString => EmptyString
  | String c s' => String (lower_ascii c) (lower s')
  end.

(** [pat in s]: substring search, as [str.contains] does for a pattern
    without regular-expression operators. *)
Fixpoint contains (pat s : string) : bool :=
  prefix pat s ||
  match s with
  | EmptyString => false
  | String _ s' => contains pat s'
  end.

(** The zero digits of the decimal-digit blocks of Unicode 14.0 outside
    ASCII (category Nd; a block is ten consecutive code points, the digits
    zero to nine): the digits of Python 3.11. *)
Definition unicode_14_blocks : list Z :=
  [1632; 1776; 1984; 2406; 2534; 2662; 2790; 2918; 3046; 3174; 3302; 3430;
   3558; 3664; 3792; 3872; 4160; 4240; 6112; 6160; 6470; 6608; 6784; 6800;
   6992; 7088; 7232; 7248; 42528; 43216; 43264; 43472; 43504; 43600; 44016;
   65296; 66720; 68912; 69734; 69872; 69942; 70096; 70384; 70736; 70864;
   71248; 71360; 71472; 71904; 72016; 72784; 73040; 73120; 92768; 92864;
   93008; 120782; 120792; 120802; 120812; 120822; 123200; 123632; 125264;
   130032].

Section Library.

(** The zero digits of the decimal-digit blocks outside ASCII of the
    Unicode version that the Python in use has ([unicode_14_blocks] is one
    such list). *)
Variable decimal_blocks : list Z.

(** Whether a Timestamp has nanosecond resolution and hence a range of
    about 1677 to 2262, as it has up to pandas 2.x ([true]), or a coarser
    resolution with a range beyond the years of a calendar date, as parsed
    text has from pandas 3.0 on ([false]). *)
Variable nanosecond : bool.

(** ** The decimal digits: [\d], and what [int] and [float] read *)

Definition block_of (c : Z) : option Z :=
  find (fun z => (z <=? c) && (c <=? z + 9)) decimal_blocks.

Definition is_digit (c : Z) : bool :=
  ((48 <=? c) && (c <=? 57))
  || ((128 <=? c) && match block_of c with Some _ => true | None => false end).

Definition digit_value (c : Z) : Z :=
  if c <? 128 then c - 48
  else match block_of c with
       | Some z => c - z
       | None => 0
       end.

Definition all_digits (d : list Z) : bool := forallb is_digit d.

(** ** Line 30: [str.extract(r"\[(\d+)\]")] *)

(** The longest run of digits at the head of [t], and what follows it. *)
Fixpoint span_digits (t : list Z) : list Z * list Z :=
  match t with
  | [] => ([], [])
  | c :: t' =>
      if is_digit c
      then let (d, r) := span_digits t' in (c :: d, r)
      else ([], t)
  end.

(** The pattern [\[(\d+)\]] matched at the head of [t]: group 1.
    (91 is the opening and 93 the closing square bracket.) *)
Definition match_here (t : list Z) : option (list Z) :=
  match t with
  | c :: t' =>
      if c =? 91 then
        match span_digits t' with
        | (c1 :: d, c2 :: _) =>
            if c2 =? 93 then Some (c1 :: d) else None
        | _ => None
        end
      else None
  | [] => None
  end.

(** [re.search]: the match at the leftmost position that has one. *)
Fixpoint re_search (t : list Z) : option (list Z) :=
  match match_here t with
  | Some d => Some d
  | None =>
      match t with
      | [] => None
      | _ :: t' => re_search t'
      end
  end.

Definition str_extract (cell : option string) : option (list Z) :=
  match cell with
  | None => None
  | Some s => re_search (codepoints s)
  end.

(** ** Line 31: [.astype(float).astype("Int64")] *)

Inductive float64 : Type :=
| fNaN
| fInf
| fInt (v : Z).

Fixpoint Z_of_digits_acc (acc : Z) (d : list Z) : Z :=
  match d with
  | [] => acc
  | c :: d' => Z_of_digits_acc (10 * acc + digit_value c) d'
  end.

(** The integer a digit run denotes in base ten. *)
Definition Z_of_digits (d : list Z) : Z := Z_of_digits_acc 0 d.

(** The double nearest to the non-negative integer [n] (ties to even, 53
    bits of significand); [None] when it overflows to infinity. *)
Definition round_to_double (n : Z) : option Z :=
  let e := Z.max 0 (Z.log2 n - 52) in
  let q := n / 2 ^ e in
  let r := n mod 2 ^ e in
  let q' := if 2 * r <? 2 ^ e then q
            else if 2 ^ e <? 2 * r then q + 1
            else if Z.even q then q else q + 1 in
  let v := q' * 2 ^ e in
  if v <? 2 ^ 1024 then Some v else None.

Definition astype_float (cell : option (list Z)) : float64 :=
  match cell with
  | None => fNaN
  | Some d =>
      match round_to_double (Z_of_digits d) with
      | Some v => fInt v
      | None => fInf
      end
  end.

(** One float64 to the nullable integer type: NaN becomes <NA>, [int] of
    infinity raises, a value that does not survive the cast to int64
    raises. *)
Definition astype_Int64 (x : float64) : result (option Z) :=
  match x with
  | fNaN => Ok None
  | fInf => Raise OverflowError
  | fInt v => if v <? 2 ^ 63 then Ok (Some v) else Raise TypeError
  end.

Definition is_inf (x : float64) : bool :=
  match x with
  | fInf => true
  | _ => false
  end.

(** A float64 column to Int64: the conversion first takes [int] of the
    largest value of the column, which raises when that is infinity, and
    then casts the values. *)
Definition astype_Int64_column (col : list float64) : result (list (option Z)) :=
  if existsb is_inf col then Raise OverflowError else mapM astype_Int64 col.

(** The derived code of one material cell (lines 30-31). *)
Definition purchasing_category (material : option string) : result (option Z) :=
  astype_Int64 (astype_float (str_extract material)).

(** ** The input tables *)

Record date : Type := { dt_year : Z; dt_month : Z; dt_day : Z }.

(** A cell of the "Date of entry" column as [read_excel] delivers it: blank,
    text, or a date-typed spreadsheet cell. *)
Inductive date_cell : Type :=
| DBlank
| DText (s : string)
| DStamp (d : date).

(** A row of the sourcing-events sheet (the columns the script reads). *)
Record event : Type := {
  Material : option string;
  Name : option string;
  Organization : option string;
  Date_of_entry : date_cell
}.

(** A row of the "New Structure" sheet, restricted to its two columns. *)
Record mapping : Type := {
  map_PC : option Z;        (* "Purchasing Category (PC)" *)
  SMC : option string       (* "Supply Market Cluster (SMC)" *)
}.

(** ** Lines 29-32: category code and test-record exclusion *)

(** The [.str] accessor of a column: a column of a table with rows that
    holds no text is no text column, and the accessor raises. *)
Definition str_accessor (col : list (option string)) : result unit :=
  match col with
  | [] => Ok tt
  | _ :: _ =>
      if existsb (fun c => match c with Some _ => true | None => false end) col
      then Ok tt
      else Raise AttributeError
  end.

(** [Name.str.lower().str.contains("test", na=False)] *)
Definition name_is_test (name : option string) : bool :=
  match name with
  | None => false
  | Some s => contains "test" (lower s)
  end.

(** Lines 30-31: the events with their category codes. *)
Definition derive_codes (raw : list event) : result (list (event * option Z)) :=
  _ <- str_accessor (map Material raw) ;;
  codes <- astype_Int64_column
             (map (fun e => astype_float (str_extract (Material e))) raw) ;;
  Ok (combine raw codes).

Definition exclude_tests (df : list (event * option Z)) : list (event * option Z) :=
  filter (fun r => negb (name_is_test (Name (fst r)))) df.

(** Lines 29-32. *)
Definition load_events (raw : list event) : result (list (event * option Z)) :=
  df1 <- derive_codes raw ;;
  _ <- str_accessor (map Name raw) ;;
  Ok (exclude_tests df1).

(** ** Lines 34-37: the cluster mapping and the left join *)

Definition option_eqb {A : Type} (eqb : A -> A -> bool) (x y : option A) : bool :=
  match x, y with
  | None, None => true
  | Some a, Some b => eqb a b
  | _, _ => false
  end.

(** Equality of join keys; pandas matches a null key with a null key. *)
Definition key_eqb : option Z -> option Z -> bool := option_eqb Z.eqb.

Definition label_eqb : option string -> option string -> bool := option_eqb String.eqb.

Definition mapping_eqb (a b : mapping) : bool :=
  key_eqb (map_PC a) (map_PC b) && label_eqb (SMC a) (SMC b).

(** [drop_duplicates()]: the first occurrence of every row is kept. *)
Fixpoint drop_duplicates_from (seen : list mapping) (l : list mapping) : list mapping :=
  match l with
  | [] => []
  | m :: l' =>
      if existsb (mapping_eqb m) seen
      then drop_duplicates_from seen l'
      else m :: drop_duplicates_from (m :: seen) l'
  end.

Definition drop_duplicates (l : list mapping) : list mapping :=
  drop_duplicates_from [] l.

Definition matches (pc : option Z) (df2 : list mapping) : list mapping :=
  filter (fun m => key_eqb pc (map_PC m)) df2.

(** The rows a left row contributes to [merge(..., how="left")]. *)
Definition join_row (df2 : list mapping) (l : event * option Z)
  : list (event * option Z * option string) :=
  match matches (snd l) df2 with
  | [] => [(l, None)]
  | ms => map (fun m => (l, SMC m)) ms
  end.

Definition merge_left (df1 : list (event * option Z)) (df2 : list mapping)
  : list (event * option Z * option string) :=
  flat_map (join_row df2) df1.

(** ** Line 38: [to_datetime(format="%d/%m/%Y", errors="coerce")] *)

(** The parts of a text between its slashes (code point 47). *)
Fixpoint split_slash (t : list Z) : list (list Z) :=
  match t with
  | [] => [[]]
  | c :: t' =>
      match split_slash t' with
      | p :: ps => if c =? 47 then [] :: p :: ps else (c :: p) :: ps
      | [] => [[c]]
      end
  end.

Definition in_range (lo hi c : Z) : bool := (lo <=? c) && (c <=? hi).

(** The directive [%d]: [3[0-1]|[1-2]\d|0[1-9]|[1-9]| [1-9]], and [int] of
    the match (48 to 57 are the digits 0 to 9, 32 is the space). *)
Definition parse_day (t : list Z) : option Z :=
  match t with
  | [c] =>
      if in_range 49 57 c then Some (c - 48) else None
  | [c1; c2] =>
      if ((c1 =? 51) && in_range 48 49 c2)
         || (in_range 49 50 c1 && is_digit c2)
         || ((c1 =? 48) && in_range 49 57 c2)
      then Some (10 * (c1 - 48) + digit_value c2)
      else if (c1 =? 32) && in_range 49 57 c2 then Some (c2 - 48)
      else None
  | _ => None
  end.

(** The directive [%m]: [1[0-2]|0[1-9]|[1-9]]. *)
Definition parse_month (t : list Z) : option Z :=
  match t with
  | [c] =>
      if in_range 49 57 c then Some (c - 48) else None
  | [c1; c2] =>
      if ((c1 =? 49) && in_range 48 50 c2)
         || ((c1 =? 48) && in_range 49 57 c2)
      then Some (10 * (c1 - 48) + (c2 - 48))
      else None
  | _ => None
  end.

(** The directive [%Y]: [\d\d\d\d]. *)
Definition parse_year (t : list Z) : option Z :=
  if (List.length t =? 4)%nat && all_digits t then Some (Z_of_digits t) else None.

Definition is_leap (y : Z) : bool :=
  ((y mod 4 =? 0) && negb (y mod 100 =? 0)) || (y mod 400 =? 0).

Definition days_in_month (y m : Z) : Z :=
  if m =? 2 then (if is_leap y then 29 else 28)
  else if (m =? 4) || (m =? 6) || (m =? 9) || (m =? 11) then 30
  else 31.

(** Lexicographic order on (year, month, day). *)
Definition date_leb (a b : date) : bool :=
  (dt_year a <? dt_year b)
  || ((dt_year a =? dt_year b)
      && ((dt_month a <? dt_month b)
          || ((dt_month a =? dt_month b) && (dt_day a <=? dt_day b)))).

(** The days whose midnight a nanosecond-resolution Timestamp can hold. *)
Definition Timestamp_min : date := {| dt_year := 1677; dt_month := 9; dt_day := 22 |}.
Definition Timestamp_max : date := {| dt_year := 2262; dt_month := 4; dt_day := 11 |}.

(** What is not a calendar day (of the years 1 to 9999), or does not fit a
    Timestamp, is no date. *)
Definition check_date (t : date) : option date :=
  if (1 <=? dt_year t) && (dt_year t <=? 9999)
     && (1 <=? dt_month t) && (dt_month t <=? 12)
     && (1 <=? dt_day t) && (dt_day t <=? days_in_month (dt_year t) (dt_month t))
     && (negb nanosecond || (date_leb Timestamp_min t && date_leb t Timestamp_max))
  then Some t else None.

Definition strptime (s : string) : option date :=
  match split_slash (codepoints s) with
  | [d; m; y] =>
      match parse_day d, parse_month m, parse_year y with
      | Some dd, Some mm, Some yy =>
          check_date {| dt_year := yy; dt_month := mm; dt_day := dd |}
      | _, _, _ => None
      end
  | _ => None
  end.

(** [errors="coerce"]: what does not parse is NaT.  A date-typed cell is
    taken as it is. *)
Definition to_datetime (c : date_cell) : option date :=
  match c with
  | DBlank => None
  | DText s => strptime s
  | DStamp d => check_date d
  end.

(** ** Lines 41-49: organization normalization *)

Definition keep_values : list string :=
  ["PHOENIX CONTACT E-Mobility GmbH";
   "Phoenix Contact GmbH & Co. KG - Werkzeugbau"].

Definition GPN : string := "Phoenix Contact - GPN".

(** [Series.isin(values)]; a null cell is in no list of strings. *)
Definition isin (x : option string) (values : list string) : bool :=
  match x with
  | None => false
  | Some s => existsb (String.eqb s) values
  end.

(** [np.where(Organization.isin(keep_values), Organization, GPN)] *)
Definition organization1 (org : option string) : option string :=
  if isin org keep_values then org else Some GPN.

(** ** Lines 51-54: month and month name *)

(** A value that [Series.apply] hands to the lambda: a Python int when the
    column is an integer column, a Python float when it is float64. *)
Inductive pynum : Type :=
| PyInt (i : Z)
| PyFloat (x : float64).

(** [.dt.month] of one row.  The month column is an integer column when no
    date of the table is NaT and a float64 column (NaN for NaT) otherwise;
    [hasnans] says which (an integer column has no row without a date, so
    the value given for one there is never used). *)
Definition month_value (hasnans : bool) (d : option date) : pynum :=
  if hasnans
  then PyFloat (match d with Some t => fInt (dt_month t) | None => fNaN end)
  else PyInt (match d with Some t => dt_month t | None => 0 end).

Definition notna (x : pynum) : bool :=
  match x with
  | PyFloat fNaN => false
  | _ => true
  end.

(** [calendar.month_name]: thirteen entries, the first one empty. *)
Definition calendar_month_name : list string :=
  [""; "January"; "February"; "March"; "April"; "May"; "June"; "July";
   "August"; "September"; "October"; "November"; "December"].

(** Indexing a Python list: negative indices count from the end, an index
    out of range raises, an index that is not an integer raises. *)
Definition getitem (l : list string) (x : pynum) : result string :=
  match x with
  | PyFloat _ => Raise TypeError
  | PyInt i =>
      let n := Z.of_nat (List.length l) in
      let j := if i <? 0 then i + n else i in
      if (0 <=? j) && (j <? n) then Ok (nth (Z.to_nat j) l "") else Raise IndexError
  end.

(** [lambda x: calendar.month_name[x] if pd.notna(x) else ""] *)
Definition month_name_of (x : pynum) : result string :=
  if notna x then getitem calendar_month_name x else Ok "".

(** [list(calendar.month_name[1:])] *)
Definition month_order : list string := tl calendar_month_name.

(** One value of [pd.Categorical(values, categories=...)]: a value outside
    the categories becomes NaN. *)
Definition Categorical (categories : list string) (v : string) : option string :=
  if existsb (String.eqb v) categories then Some v else None.

(** A row of [df_merged] after line 54. *)
Record row : Type := {
  source : event;                   (* the columns of the events sheet *)
  PC : option Z;                    (* "Purchasing Category (PC)" *)
  Groups : option string;           (* "Supply Market Cluster (SMC)", renamed *)
  entry_date : option date;         (* "Date of entry" after line 38 *)
  Organization1 : option string;
  month : pynum;
  month_label : string;             (* "month_name" after line 52 *)
  month_name : option string        (* "month_name" after line 54 *)
}.

Definition enrich (hasnans : bool) (r : event * option Z * option string) : result row :=
  let e := fst (fst r) in
  let d := to_datetime (Date_of_entry e) in
  let m := month_value hasnans d in
  label <- month_name_of m ;;
  Ok {| source := e;
        PC := snd (fst r);
        Groups := snd r;
        entry_date := d;
        Organization1 := organization1 (Organization e);
        month := m;
        month_label := label;
        month_name := Categorical month_order label |}.

Definition isNaT (r : event * option Z * option string) : bool :=
  match to_datetime (Date_of_entry (fst (fst r))) with
  | None => true
  | Some _ => false
  end.

(** Lines 29-54. *)
Definition transform (raw : list event) (sms : list mapping) : result (list row) :=
  df1 <- load_events raw ;;
  let df2 := drop_duplicates sms in
  let df_merged := merge_left df1 df2 in
  mapM (enrich (existsb isNaT df_merged)) df_merged.

(** ** Lines 61-67: the filter *)

(** [Series.unique()]: the distinct values in order of first appearance. *)
Fixpoint unique (l : list string) : list string :=
  match l with
  | [] => []
  | x :: l' => x :: filter (fun y => negb (String.eqb x y)) (unique l')
  end.

(** The non-null values of a column. *)
Definition values (col : row -> option string) (df : list row) : list string :=
  flat_map (fun r => match col r with Some v => [v] | None => [] end) df.

Definition default_orgs (df_merged : list row) : list string :=
  unique (values Organization1 df_merged).

Definition filtered_df (orgs months : list string) (df_merged : list row) : list row :=
  filter (fun r => isin (Organization1 r) orgs && isin (month_name r) months) df_merged.

(** ** Group sizes and pivot tables *)

(** The distinct values of a key in ascending order, as a sorted group-by
    lists its groups. *)
Fixpoint insert_sorted (x : string) (l : list string) : list string :=
  match l with
  | [] => [x]
  | y :: l' =>
      if String.eqb x y then l
      else if String.ltb x y then x :: l
      else y :: insert_sorted x l'
  end.

Definition sorted_unique (l : list string) : list string :=
  fold_right insert_sorted [] l.

Definition has (col : row -> option string) (v : string) (r : row) : bool :=
  label_eqb (col r) (Some v).

Definition is_some {A : Type} (o : option A) : bool :=
  match o with Some _ => true | None => false end.

(** The number of rows of the group [(a, b)]. *)
Definition size (ka kb : row -> option string) (df : list row) (a b : string) : nat :=
  List.length (filter (fun r => has ka a r && has kb b r) df).

Section GroupBy.

(** The [observed] argument of [groupby] and [pivot_table].  The script
    leaves it to the library's default: [false] up to pandas 2.x, [true]
    from pandas 3.0 on. *)
Variable observed : bool.

(** The groups of a plain (string) key, the other key being [other]: rows
    with a null key belong to no group. *)
Definition plain_levels (key other : row -> option string) (df : list row) : list string :=
  sorted_unique
    (values key (if observed then filter (fun r => is_some (other r)) df else df)).

(** The groups of a categorical key: all categories, or the observed
    ones, in the order of the categories. *)
Definition categorical_levels (key other : row -> option string)
           (categories : list string) (df : list row) : list string :=
  if observed
  then filter (fun c => existsb (fun r => has key c r && is_some (other r)) df) categories
  else categories.

(** [groupby([key, cat]).size().reset_index(name="count")] for a plain
    key and a categorical key. *)
Definition groupby_size (key cat : row -> option string) (categories : list string)
           (df : list row) : list (string * string * nat) :=
  flat_map
    (fun a =>
       flat_map
         (fun b =>
            let n := size key cat df a b in
            if observed && (n =? 0)%nat then [] else [(a, b, n)])
         categories)
    (sorted_unique (values key df)).

End GroupBy.

(** A table of counts: row labels, column labels and the cells row by row;
    a cell is [None] when it is NaN. *)
Record crosstab : Type := {
  ct_index : list string;
  ct_columns : list string;
  ct_cells : list (list (option nat))
}.

Fixpoint assoc {A : Type} (k : string) (l : list (string * A)) : option A :=
  match l with
  | [] => None
  | (k', a) :: l' => if String.eqb k k' then Some a else assoc k l'
  end.

(** [pivot_table(index=.., columns=.., aggfunc="size", fill_value=0)] over
    the given row and column groups. *)
Definition pivot_table (idx col : row -> option string)
           (index_levels column_levels : list string) (df : list row) : crosstab :=
  {| ct_index := index_levels;
     ct_columns := column_levels;
     ct_cells :=
       map (fun i => map (fun c => Some (size idx col df i c)) column_levels)
           index_levels |}.

(** [reindex(columns=labels, fill_value=fill)] *)
Definition reindex_columns (labels : list string) (fill : option nat) (t : crosstab) : crosstab :=
  {| ct_index := ct_index t;
     ct_columns := labels;
     ct_cells :=
       map (fun cells =>
              map (fun c =>
                     match assoc c (combine (ct_columns t) cells) with
                     | Some x => x
                     | None => fill
                     end)
                  labels)
           (ct_cells t) |}.

(** [reindex(labels)]: a label the table does not have gets a row of NaN. *)
Definition reindex (labels : list string) (t : crosstab) : crosstab :=
  {| ct_index := labels;
     ct_columns := ct_columns t;
     ct_cells :=
       map (fun i =>
              match assoc i (combine (ct_index t) (ct_cells t)) with
              | Some cells => cells
              | None => map (fun _ => None) (ct_columns t)
              end)
           labels |}.

(** ** Lines 70-141: the views *)

Section Views.

Variable observed : bool.

(** Lines 76-77. *)
Definition monthly_counts (filtered : list row) : list (string * string * nat) :=
  groupby_size observed Organization1 month_name month_order filtered.

(** Line 92. *)
Definition df_gpn (filtered : list row) : list row :=
  filter (fun r => label_eqb (Organization1 r) (Some GPN)) filtered.

(** A pivot table with the month names as columns, then
    [reindex(columns=month_order, fill_value=0)] (lines 94-95, 108-109). *)
Definition by_month (key : row -> option string) (df : list row) : crosstab :=
  reindex_columns month_order (Some 0%nat)
    (pivot_table key month_name
       (plain_levels observed key month_name df)
       (categorical_levels observed month_name key month_order df)
       df).

(** A pivot table with the month names as index, then
    [reindex(month_order)] (lines 135, 141). *)
Definition month_by (key : row -> option string) (df : list row) : crosstab :=
  reindex month_order
    (pivot_table month_name key
       (categorical_levels observed month_name key month_order df)
       (plain_levels observed key month_name df)
       df).

Definition pivot_cluster (gpn : list row) : crosstab := by_month Groups gpn.

Definition pivot_org (gpn : list row) : crosstab :=
  by_month (fun r => Organization (source r)) gpn.

Definition pivot_table1 (filtered : list row) : crosstab :=
  month_by Organization1 filtered.

Definition pivot_table2 (gpn : list row) : crosstab := month_by Groups gpn.

(** What one run of the script shows. *)
Record report : Type := {
  total_events : nat;
  chart1 : list (string * string * nat);      (* monthly_counts, fig1 *)
  chart2 : option crosstab;                   (* pivot_cluster, fig2 *)
  chart3 : option crosstab;                   (* pivot_org, fig3 *)
  table1 : crosstab;                          (* pivot_table1 *)
  table2 : option crosstab                    (* pivot_table2 *)
}.

(** [if not df_gpn.empty: ...] *)
Definition unless_empty (gpn : list row) (view : list row -> crosstab) : option crosstab :=
  match gpn with
  | [] => None
  | _ => Some (view gpn)
  end.

Definition render (df_merged : list row) (orgs months : list string) : report :=
  let filtered := filtered_df orgs months df_merged in
  let gpn := df_gpn filtered in
  {| total_events := List.length filtered;
     chart1 := monthly_counts filtered;
     chart2 := unless_empty gpn pivot_cluster;
     chart3 := unless_empty gpn pivot_org;
     table1 := pivot_table1 filtered;
     table2 := unless_empty gpn pivot_table2 |}.

(** [px.bar(t, x=t.columns, y=t.index)] (lines 97 and 111): the month names
    given as [x] are column names of [t], so [x] is taken as a list of
    columns; [y] is taken as one too when every label of the index is a
    column name of [t], as it is on a table without rows, and the call
    raises. *)
Definition px_bar (t : option crosstab) : result unit :=
  match t with
  | Some t =>
      if forallb (fun g => existsb (String.eqb g) (ct_columns t)) (ct_index t)
      then Raise ValueError
      else Ok tt
  | None => Ok tt
  end.

(** The whole script for one pair of uploads and one pair of selections. *)
Definition run (raw : list event) (sms : list mapping) (orgs months : list string)
  : result report :=
  df_merged <- transform raw sms ;;
  let R := render df_merged orgs months in
  _ <- px_bar (chart2 R) ;;
  _ <- px_bar (chart3 R) ;;
  Ok R.

End Views.

(** ** Sample inputs *)

(** The end-to-end example of the specification. *)
Definition example_events : list event :=
  [ {| Material := Some "Widget [12]"; Name := Some "Prod";
       Organization := Some "Acme"; Date_of_entry := DText "01/03/2024" |};
    {| Material := Some "Gadget [99]"; Name := Some "TestRun";
       Organization := Some "Acme"; Date_of_entry := DText "15/03/2024" |} ].

Definition example_mapping : list mapping :=
  [ {| map_PC := Some 12; SMC := Some "ClusterA" |} ].

Definition example_row : row :=
  {| source := {| Material := Some "Widget [12]"; Name := Some "Prod";
                  Organization := Some "Acme"; Date_of_entry := DText "01/03/2024" |};
     PC := Some 12;
     Groups := Some "ClusterA";
     entry_date := Some {| dt_year := 2024; dt_month := 3; dt_day := 1 |};
     Organization1 := Some "Phoenix Contact - GPN";
     month := PyInt 3;
     month_label := "March";
     month_name := Some "March" |}.

(** An event whose entry date does not have the day/month/year format. *)
Definition undated_event : event :=
  {| Material := Some "Pump [40]"; Name := None;
     Organization := Some "PHOENIX CONTACT E-Mobility GmbH";
     Date_of_entry := DText "2024-03-01" |}.

Definition undated_row : row :=
  {| source := undated_event;
     PC := Some 40;
     Groups := None;
     entry_date := None;
     Organization1 := Some "PHOENIX CONTACT E-Mobility GmbH";
     month := PyFloat fNaN;
     month_label := "";
     month_name := None |}.

(** An event whose category code is on no mapping row. *)
Definition unmatched_event : event :=
  {| Material := Some "Valve [77]"; Name := Some "Valve";
     Organization := Some "Acme"; Date_of_entry := DText "05/01/2024" |}.

Definition unmatched_row : row :=
  {| source := unmatched_event;
     PC := Some 77;
     Groups := None;
     entry_date := Some {| dt_year := 2024; dt_month := 1; dt_day := 5 |};
     Organization1 := Some "Phoenix Contact - GPN";
     month := PyInt 1;
     month_label := "January";
     month_name := Some "January" |}.

(** An event whose bracketed number has more digits than a double holds. *)
Definition relay_event : event :=
  {| Material := Some "Relay [9007199254740993]"; Name := Some "Relay";
     Organization := Some "Acme"; Date_of_entry := DText "01/03/2024" |}.

(** An event whose bracketed number is written with the Arabic-Indic digits
    one and two (U+0661, U+0662). *)
Definition arabic_event : event :=
  {| Material := Some ("Cable [" ++ utf8 [217; 161; 217; 162] ++ "]")%string;
     Name := Some "Cable";
     Organization := Some "Acme"; Date_of_entry := DText "01/03/2024" |}.

(** Two events that are no test records, the entry date of the first in the
    day/month/year format, the entry date of the second not. *)
Definition mixed_events : list event :=
  [ {| Material := Some "Widget [12]"; Name := Some "Prod";
       Organization := Some "Acme"; Date_of_entry := DText "01/03/2024" |};
    {| Material := Some "Pump [40]"; Name := Some "Pump";
       Organization := Some "Acme"; Date_of_entry := DText "2024-03-01" |} ].

(** An event with a name whose entry date does not parse, and its row. *)
Definition unparsed_event : event :=
  {| Material := Some "Pump [40]"; Name := Some "Pump";
     Organization := Some "Acme"; Date_of_entry := DText "2024-03-01" |}.

Definition unparsed_row : row :=
  {| source := unparsed_event;
     PC := Some 40;
     Groups := None;
     entry_date := None;
     Organization1 := Some "Phoenix Contact - GPN";
     month := PyFloat fNaN;
     month_label := "";
     month_name := None |}.

(** An input with a test record whose bracketed number does not fit int64,
    and one with a test record whose bracketed number does not fit a
    double. *)
Definition oversized_events : list event :=
  [ {| Material := Some "Widget [12]"; Name := Some "Prod";
       Organization := Some "Acme"; Date_of_entry := DText "01/03/2024" |};
    {| Material := Some "Dummy [18446744073709551616]"; Name := Some "test";
       Organization := Some "Acme"; Date_of_entry := DText "02/03/2024" |} ].

Definition overflowing_events : list event :=
  [ {| Material := Some "Widget [12]"; Name := Some "Prod";
       Organization := Some "Acme"; Date_of_entry := DText "01/03/2024" |};
    {| Material := Some ("Dummy [1" ++ utf8 (repeat 48 309) ++ "]")%string;
       Name := Some "test";
       Organization := Some "Acme"; Date_of_entry := DText "02/03/2024" |} ].

(** ** What the specification talks about *)

(** The text [t] has the digit run [d] in square brackets right after
    [pre] (91 and 93 are the square brackets). *)
Definition bracketed (t pre d post : list Z) : Prop :=
  t = (pre ++ 91 :: d ++ 93 :: post)%list /\ d <> [] /\ all_digits d = true.

(** [d] is the first bracketed digit run of [t]. *)
Definition first_bracketed (t d : list Z) : Prop :=
  exists pre post,
    bracketed t pre d post /\
    forall pre' d' post',
      bracketed t pre' d' post' -> (List.length pre <= List.length pre')%nat.

Definition no_bracketed (t : list Z) : Prop :=
  forall pre d post, ~ bracketed t pre d post.

(** [s] contains the substring "test" in some letter case. *)
Definition mentions_test (s : string) : Prop :=
  exists pre u post, s = pre ++ u ++ post /\ lower u = "test".

(** The English name of the calendar month with number [m]. *)
Definition english_month_name (m : Z) : string :=
  match m with
  | 1 => "January" | 2 => "February" | 3 => "March" | 4 => "April"
  | 5 => "May" | 6 => "June" | 7 => "July" | 8 => "August"
  | 9 => "September" | 10 => "October" | 11 => "November" | 12 => "December"
  | _ => ""
  end.


(** The count a cell stands for; NaN stands for no record. *)
Definition cell_count (c : option nat) : nat :=
  match c with
  | Some n => n
  | None => 0%nat
  end.

(** The sum of all counts of a table. *)
Definition grand_total (t : crosstab) : nat :=
  list_sum (map (fun cells => list_sum (map cell_count cells)) (ct_cells t)).

(** The sum of the "count" column of the monthly counts. *)
Definition counts_total (counts : list (string * string * nat)) : nat :=
  list_sum (map snd counts).

(** * Properties *)

Arguments is_digit : simpl never.
Arguments digit_value : simpl never.
Arguments lower_ascii : simpl never.
Arguments Z.pow : simpl never.

(** ** Category extraction (lines 30-31) *)

Lemma app_same_length {A : Type} (a a' b b' : list A) :
  (a ++ b = a' ++ b')%list -> List.length a = List.length a' -> a = a' /\ b = b'.
Proof.
  revert a'; induction a as [|c a IH]; intros [|c' a'] E L; simpl in *;
    try discriminate; auto.
  injection E as -> E. injection L as L.
  destruct (IH _ E L) as [-> ->]; auto.
Qed.

Lemma span_digits_app (d r : list Z) :
  all_digits d = true ->
  (forall c r', r = c :: r' -> is_digit c = false) ->
  span_digits (d ++ r) = (d, r).
Proof.
  intros Hd Hr. induction d as [|c d IH]; simpl in *.
  - destruct r as [|c r']; [reflexivity|]. simpl. now rewrite (Hr c r' eq_refl).
  - apply andb_prop in Hd as [Hc Hd]. now rewrite Hc, IH.
Qed.

Lemma span_digits_inv (t : list Z) :
  forall d r,
    span_digits t = (d, r) ->
    t = (d ++ r)%list /\ all_digits d = true /\
    (forall c r', r = c :: r' -> is_digit c = false).
Proof.
  induction t as [|c t IH]; simpl; intros d r H.
  - injection H as <- <-. repeat split; auto. discriminate.
  - destruct (is_digit c) eqn:Hc.
    + destruct (span_digits t) as [d0 r0]. injection H as <- <-.
      destruct (IH _ _ eq_refl) as (-> & Hd & Hr).
      simpl. rewrite Hc, Hd. auto.
    + injection H as <- <-. repeat split; auto.
      intros c' r' E. injection E as <- <-. exact Hc.
Qed.

(** The closing bracket is no digit, whatever the digits outside ASCII. *)
Lemma close_bracket_not_digit (post : list Z) :
  forall c r', 93 :: post = c :: r' -> is_digit c = false.
Proof. intros c r' E. injection E as <- _. reflexivity. Qed.

Lemma match_here_complete (d post : list Z) :
  d <> [] -> all_digits d = true ->
  match_here (91 :: d ++ 93 :: post) = Some d.
Proof.
  intros Hne Hd. unfold match_here.
  rewrite Z.eqb_refl, (span_digits_app d (93 :: post) Hd (close_bracket_not_digit post)).
  destruct d; [congruence|reflexivity].
Qed.

Lemma match_here_sound (t d : list Z) :
  match_here t = Some d -> exists post, bracketed t [] d post.
Proof.
  destruct t as [|c t]; simpl; [discriminate|].
  destruct (Z.eqb_spec c 91); [subst c|discriminate].
  destruct (span_digits t) as [d0 r] eqn:Hsp.
  destruct (span_digits_inv _ _ _ Hsp) as (-> & Hd & _).
  destruct d0 as [|c1 d0]; [discriminate|].
  destruct r as [|c2 r]; [discriminate|].
  destruct (Z.eqb_spec c2 93); [subst c2|discriminate].
  intros H; injection H as <-. exists r.
  repeat split; auto. discriminate.
Qed.

Lemma match_here_bracketed (t d : list Z) :
  match_here t = Some d <-> exists post, bracketed t [] d post.
Proof.
  split.
  - apply match_here_sound.
  - intros (post & -> & Hne & Hd). now apply match_here_complete.
Qed.

Lemma bracketed_cons (c : Z) (t pre d post : list Z) :
  bracketed t pre d post -> bracketed (c :: t) (c :: pre) d post.
Proof. intros (-> & ? & ?). repeat split; auto. Qed.

Lemma bracketed_uncons (c : Z) (t pre d post : list Z) :
  bracketed (c :: t) pre d post ->
  (pre = [] /\ match_here (c :: t) = Some d) \/
  exists pre', pre = c :: pre' /\ bracketed t pre' d post.
Proof.
  intros H. destruct pre as [|c' pre'].
  - left. split; auto. apply match_here_bracketed. eauto.
  - right. destruct H as (E & ? & ?). simpl in E. injection E as <- ->.
    exists pre'. repeat split; auto.
Qed.

Lemma re_search_first (t d : list Z) :
  re_search t = Some d -> first_bracketed t d.
Proof.
  revert d. induction t as [|c t IH]; intros d.
  - simpl. discriminate.
  - cbn [re_search]. destruct (match_here (c :: t)) as [d0|] eqn:Hm.
    + intros H; injection H as <-.
      apply match_here_bracketed in Hm as (post & Hb).
      exists [], post. split; auto. intros; simpl; lia.
    + intros H. destruct (IH _ H) as (pre & post & Hb & Hmin).
      exists (c :: pre), post. split; [now apply bracketed_cons|].
      intros pre' d' post' Hb'.
      destruct (bracketed_uncons _ _ _ _ _ Hb') as [[_ Hm']|(p & -> & Hp)]; [congruence|].
      simpl. apply Hmin in Hp. lia.
Qed.

Lemma re_search_None (t : list Z) :
  re_search t = None <-> no_bracketed t.
Proof.
  split.
  - induction t as [|c t IH]; intros H pre d post Hb.
    + destruct Hb as (E & _). destruct pre; discriminate.
    + cbn [re_search] in H. destruct (match_here (c :: t)) eqn:Hm; [discriminate|].
      destruct (bracketed_uncons _ _ _ _ _ Hb) as [[_ Hm']|(p & -> & Hp)]; [congruence|].
      exact (IH H _ _ _ Hp).
  - intros H. destruct (re_search t) as [d|] eqn:E; auto.
    destruct (re_search_first _ _ E) as (pre & post & Hb & _).
    destruct (H _ _ _ Hb).
Qed.

Lemma bracketed_same_start (t pre d post pre' d' post' : list Z) :
  bracketed t pre d post -> bracketed t pre' d' post' ->
  List.length pre = List.length pre' -> d = d'.
Proof.
  intros (E & _ & Hd) (E' & _ & Hd') L. rewrite E in E'.
  destruct (app_same_length _ _ _ _ E' L) as [_ E2].
  injection E2 as E2.
  pose proof (span_digits_app d (93 :: post) Hd (close_bracket_not_digit post)) as S1.
  pose proof (span_digits_app d' (93 :: post') Hd' (close_bracket_not_digit post')) as S2.
  rewrite E2 in S1. congruence.
Qed.

Lemma first_bracketed_unique (t d d' : list Z) :
  first_bracketed t d -> first_bracketed t d' -> d = d'.
Proof.
  intros (pre & post & Hb & Hmin) (pre' & post' & Hb' & Hmin').
  apply (bracketed_same_start _ _ _ _ _ _ _ Hb Hb').
  apply Hmin in Hb' as L1. apply Hmin' in Hb as L2. lia.
Qed.

Lemma re_search_spec (t d : list Z) :
  re_search t = Some d <-> first_bracketed t d.
Proof.
  split; [apply re_search_first|].
  intros H. destruct (re_search t) as [d0|] eqn:E.
  - f_equal. apply re_search_first in E. exact (first_bracketed_unique _ _ _ E H).
  - apply re_search_None in E. destruct H as (pre & post & Hb & _).
    destruct (E _ _ _ Hb).
Qed.

Lemma round_to_double_exact (n : Z) :
  n <= 2 ^ 53 -> round_to_double n = Some n.
Proof.
  intros Hn. unfold round_to_double.
  assert (Hbig : 2 ^ 54 < 2 ^ 1024) by (apply Z.pow_lt_mono_r; lia).
  assert (H54 : 2 ^ 54 = 2 * 2 ^ 53) by reflexivity.
  destruct (Z.eq_dec n (2 ^ 53)) as [->|Hne].
  - replace (Z.max 0 (Z.log2 (2 ^ 53) - 52)) with 1 by reflexivity.
    replace (2 ^ 53 mod 2 ^ 1) with 0 by reflexivity.
    replace (2 ^ 53 / 2 ^ 1 * 2 ^ 1) with (2 ^ 53) by reflexivity.
    change (2 * 0 <? 2 ^ 1) with true. cbv iota.
    destruct (Z.ltb_spec (2 ^ 53) (2 ^ 1024)); [reflexivity|lia].
  - assert (He : Z.max 0 (Z.log2 n - 52) = 0).
    { destruct (Z.le_gt_cases n 0) as [Hle|Hpos].
      - rewrite Z.log2_nonpos by assumption. reflexivity.
      - assert (Z.log2 n < 53) by (apply Z.log2_lt_pow2; lia). lia. }
    rewrite He. change (2 ^ 0) with 1.
    rewrite Z.div_1_r, Z.mod_1_r, Z.mul_1_r. change (2 * 0 <? 1) with true. cbv iota.
    destruct (Z.ltb_spec n (2 ^ 1024)); [reflexivity|lia].
Qed.

(** ** The error monad *)

Lemma bind_Ok {A B : Type} (m : result A) (k : A -> result B) (b : B) :
  bind m k = Ok b -> exists a, m = Ok a /\ k a = Ok b.
Proof. destruct m as [a|e]; simpl; [eauto|discriminate]. Qed.

Lemma mapM_Ok_length {A B : Type} (f : A -> result B) (l : list A) :
  forall l', mapM f l = Ok l' -> List.length l' = List.length l.
Proof.
  induction l as [|a l IH]; simpl; intros l' H.
  - injection H as <-. reflexivity.
  - apply bind_Ok in H as (b & _ & H). apply bind_Ok in H as (bs & Hbs & H).
    injection H as <-. simpl. f_equal. auto.
Qed.

Lemma mapM_Ok_In {A B : Type} (f : A -> result B) (l : list A) :
  forall l', mapM f l = Ok l' ->
             forall b, In b l' <-> exists a, In a l /\ f a = Ok b.
Proof.
  induction l as [|a l IH]; simpl; intros l' H b.
  - injection H as <-. simpl. split; [tauto|]. intros (? & [] & _).
  - apply bind_Ok in H as (b0 & Hb0 & H). apply bind_Ok in H as (bs & Hbs & H).
    injection H as <-. simpl. rewrite (IH _ Hbs). split.
    + intros [<-|(a' & ? & ?)]; eauto.
    + intros (a' & [<-|Ha] & Hf); [left; congruence|right; eauto].
Qed.

Lemma mapM_total {A B : Type} (f : A -> result B) (g : A -> B) (l : list A) :
  (forall a, In a l -> f a = Ok (g a)) -> mapM f l = Ok (map g l).
Proof.
  induction l as [|a l IH]; simpl; intros H; [reflexivity|].
  rewrite (H a) by auto. simpl. rewrite IH by auto. reflexivity.
Qed.

Lemma mapM_Raise {A B : Type} (f : A -> result B) (l : list A) (a : A) (e : exn) :
  In a l -> f a = Raise e ->
  (forall a' e', In a' l -> f a' = Raise e' -> e' = e) ->
  mapM f l = Raise e.
Proof.
  intros Hin Hf Hall. induction l as [|a0 l IH]; simpl in *; [tauto|].
  destruct (f a0) as [b|e0] eqn:E; simpl.
  - destruct Hin as [->|Hin]; [congruence|]. rewrite (IH Hin); [reflexivity|].
    intros a' e' Ha'. apply Hall. auto.
  - f_equal. apply (Hall a0); auto.
Qed.


Lemma mapM_map {A B C : Type} (f : B -> result C) (g : A -> B) (l : list A) :
  mapM f (map g l) = mapM (fun a => f (g a)) l.
Proof. induction l as [|a l IH]; simpl; [reflexivity|]. now rewrite IH. Qed.

Lemma mapM_combine {A B : Type} (f : A -> result B) (l : list A) :
  forall l', mapM f l = Ok l' ->
             map fst (combine l l') = l
             /\ forall a b, In (a, b) (combine l l') <-> In a l /\ f a = Ok b.
Proof.
  induction l as [|a0 l IH]; simpl; intros l' H.
  - injection H as <-. split; [reflexivity|]. intros a b. simpl. tauto.
  - apply bind_Ok in H as (b0 & Hb0 & H). apply bind_Ok in H as (bs & Hbs & H).
    injection H as <-. destruct (IH _ Hbs) as [IH1 IH2]. simpl. split.
    + now rewrite IH1.
    + intros a b. rewrite IH2. split.
      * intros [E|[Ha Hf]]; [injection E as <- <-; auto|auto].
      * intros [[<-|Ha] Hf]; [left; congruence|right; auto].
Qed.

(** ** The columns of the events table (lines 30-32) *)

Lemma str_accessor_Ok (col : list (option string)) (u : unit) :
  str_accessor col = Ok u <-> col = [] \/ exists s, In (Some s) col.
Proof.
  destruct u. unfold str_accessor. destruct col as [|c col]; [tauto|].
  destruct (existsb _ (c :: col)) eqn:E.
  - split; [|reflexivity]. intros _. right.
    apply existsb_exists in E as ([s|] & Hin & Hs); [eauto|discriminate].
  - split; [discriminate|]. intros [H|(s & Hs)]; [discriminate|].
    assert (existsb (fun c => match c with Some _ => true | None => false end)
                    (c :: col) = true); [|congruence].
    apply existsb_exists. eauto.
Qed.

Lemma astype_Int64_column_Ok (col : list float64) (codes : list (option Z)) :
  astype_Int64_column col = Ok codes -> mapM astype_Int64 col = Ok codes.
Proof.
  unfold astype_Int64_column. now destruct (existsb is_inf col).
Qed.

(** What is known of the table after lines 30-31. *)
Lemma derive_codes_Ok (raw : list event) (df : list (event * option Z)) :
  derive_codes raw = Ok df ->
  map fst df = raw
  /\ forall e pc, In (e, pc) df <->
                  In e raw /\ purchasing_category (Material e) = Ok pc.
Proof.
  unfold derive_codes. intros H. apply bind_Ok in H as (u & _ & H).
  apply bind_Ok in H as (codes & Hc & H). injection H as <-.
  apply astype_Int64_column_Ok in Hc. rewrite mapM_map in Hc.
  exact (mapM_combine _ _ _ Hc).
Qed.

Lemma purchasing_category_of_run (s : string) (d : list Z) :
  first_bracketed (codepoints s) d ->
  purchasing_category (Some s) =
  astype_Int64 (match round_to_double (Z_of_digits d) with
                | Some v => fInt v
                | None => fInf
                end).
Proof.
  intros H. unfold purchasing_category, str_extract.
  apply re_search_spec in H. rewrite H. reflexivity.
Qed.

(** The code of one material cell, by cases. *)
Lemma purchasing_category_cases (material : option string) (pc : option Z) :
  purchasing_category material = Ok pc ->
  (forall s d,
      material = Some s -> first_bracketed (codepoints s) d ->
      Z_of_digits d <= 2 ^ 53 -> pc = Some (Z_of_digits d))
  /\ (forall s, material = Some s -> no_bracketed (codepoints s) -> pc = None)
  /\ (material = None -> pc = None).
Proof.
  intros H. repeat split.
  - intros s d -> Hd Hn. rewrite (purchasing_category_of_run _ _ Hd) in H.
    rewrite (round_to_double_exact _ Hn) in H. cbn [astype_Int64] in H.
    destruct (Z.ltb_spec (Z_of_digits d) (2 ^ 63)); [now injection H|discriminate].
  - intros s -> Hno. unfold purchasing_category, str_extract in H.
    apply re_search_None in Hno. rewrite Hno in H. simpl in H.
    now injection H.
  - intros ->. simpl in H. now injection H.
Qed.

(** C1 (amended): when lines 30-31 complete, every event row has a derived
    purchasing-category code; if its material text contains a run of
    decimal digits in square brackets and the first such run denotes an
    integer of at most 2^53, the code is that integer; if the material text
    has no bracketed digit run, or the material cell is blank, the code is
    null. *)
Theorem category_extraction (raw : list event) (df : list (event * option Z)) :
  derive_codes raw = Ok df ->
  map fst df = raw
  /\ forall e pc, In (e, pc) df ->
       (forall s d,
           Material e = Some s -> first_bracketed (codepoints s) d ->
           Z_of_digits d <= 2 ^ 53 -> pc = Some (Z_of_digits d))
       /\ (forall s, Material e = Some s -> no_bracketed (codepoints s) -> pc = None)
       /\ (Material e = None -> pc = None).
Proof.
  intros H. destruct (derive_codes_Ok _ _ H) as [Hfst Hin].
  split; [exact Hfst|]. intros e pc He. apply Hin in He as [_ Hpc].
  exact (purchasing_category_cases _ _ Hpc).
Qed.

(** ** The rows of the transformed table *)

Lemma enrich_Ok (h : bool) (x : event * option Z * option string) (r : row) :
  enrich h x = Ok r ->
  source r = fst (fst x) /\ PC r = snd (fst x) /\ Groups r = snd x /\
  entry_date r = to_datetime (Date_of_entry (source r)) /\
  Organization1 r = organization1 (Organization (source r)) /\
  month r = month_value h (entry_date r) /\
  month_name_of (month r) = Ok (month_label r) /\
  month_name r = Categorical month_order (month_label r).
Proof.
  unfold enrich. intros H. apply bind_Ok in H as (label & Hl & H).
  injection H as <-. simpl. repeat split; auto.
Qed.

Lemma in_merge_left (df1 : list (event * option Z)) (df2 : list mapping) :
  forall x, In x (merge_left df1 df2) ->
            In (fst x) df1 /\
            (snd x = None /\ matches (snd (fst x)) df2 = []
             \/ exists m, In m df2 /\ key_eqb (snd (fst x)) (map_PC m) = true
                          /\ snd x = SMC m).
Proof.
  intros x H. unfold merge_left in H. apply in_flat_map in H as (l & Hl & H).
  unfold join_row in H. destruct (matches (snd l) df2) as [|m ms] eqn:E.
  - destruct H as [<-|[]]. simpl. split; [assumption|left; auto].
  - apply (in_map_iff (fun m => (l, SMC m))) in H as (m' & <- & Hm').
    rewrite <- E in Hm'. apply filter_In in Hm' as [? ?]. simpl.
    split; [assumption|right; exists m'; auto].
Qed.

Lemma merge_left_keeps (df1 : list (event * option Z)) (df2 : list mapping) :
  forall l, In l df1 -> exists g, In (l, g) (merge_left df1 df2).
Proof.
  intros l Hl. unfold merge_left.
  destruct (matches (snd l) df2) as [|m ms] eqn:E.
  - exists None. apply in_flat_map. exists l. split; auto.
    unfold join_row. rewrite E. left; reflexivity.
  - exists (SMC m). apply in_flat_map. exists l. split; auto.
    unfold join_row. rewrite E. left; reflexivity.
Qed.

Lemma load_events_Ok (raw : list event) (df1 : list (event * option Z)) :
  load_events raw = Ok df1 ->
  exists df, derive_codes raw = Ok df /\ df1 = exclude_tests df.
Proof.
  unfold load_events. intros H. apply bind_Ok in H as (df & Hdf & H).
  apply bind_Ok in H as (u & _ & H). injection H as <-. eauto.
Qed.

Lemma load_events_In (raw : list event) (df1 : list (event * option Z)) :
  load_events raw = Ok df1 ->
  forall l, In l df1 <->
            In (fst l) raw /\ purchasing_category (Material (fst l)) = Ok (snd l)
            /\ name_is_test (Name (fst l)) = false.
Proof.
  intros H. apply load_events_Ok in H as (df & Hdf & ->).
  destruct (derive_codes_Ok _ _ Hdf) as [_ Hin]. intros [e pc].
  unfold exclude_tests. rewrite filter_In, Hin, negb_true_iff. simpl. tauto.
Qed.

(** What is known of every row of [df_merged]. *)
Lemma transform_row (raw : list event) (sms : list mapping) (T : list row) :
  transform raw sms = Ok T ->
  forall r, In r T ->
    In (source r) raw /\
    purchasing_category (Material (source r)) = Ok (PC r) /\
    name_is_test (Name (source r)) = false /\
    entry_date r = to_datetime (Date_of_entry (source r)) /\
    Organization1 r = organization1 (Organization (source r)) /\
    month_name_of (month r) = Ok (month_label r) /\
    month_name r = Categorical month_order (month_label r).
Proof.
  unfold transform. intros H r Hr. apply bind_Ok in H as (df1 & H1 & H).
  apply (mapM_Ok_In _ _ _ H) in Hr as (x & Hx & Hr).
  apply enrich_Ok in Hr as (Hs & Hpc & _ & Hd & Ho & _ & Hl & Hn).
  apply in_merge_left in Hx as [Hx _].
  apply (load_events_In _ _ H1) in Hx as (? & ? & ?).
  rewrite Hs, Hpc. repeat split; auto; congruence.
Qed.

(** Every event that passes the test-record exclusion has a row. *)
Lemma transform_keeps (raw : list event) (sms : list mapping) (T : list row) :
  transform raw sms = Ok T ->
  forall e, In e raw -> name_is_test (Name e) = false -> In e (map source T).
Proof.
  unfold transform. intros H e He Hn. apply bind_Ok in H as (df1 & H1 & H).
  assert (Hpc : exists pc, purchasing_category (Material e) = Ok pc).
  { destruct (load_events_Ok _ _ H1) as (df & Hdf & _).
    destruct (derive_codes_Ok _ _ Hdf) as [Hfst Hin].
    rewrite <- Hfst in He. apply in_map_iff in He as ([e' pc] & E & He).
    simpl in E. subst e'. apply Hin in He as [_ Hpc]. eauto. }
  destruct Hpc as (pc & Hpc).
  assert (Hl : In (e, pc) df1) by (apply (load_events_In _ _ H1); auto).
  destruct (merge_left_keeps _ (drop_duplicates sms) _ Hl) as (g & Hg).
  set (h := existsb isNaT _) in H. clearbody h.
  revert T H Hg. generalize (merge_left df1 (drop_duplicates sms)) as df.
  induction df as [|x df IH]; intros T H Hg; simpl in *; [tauto|].
  apply bind_Ok in H as (r & Hr & H).
  apply bind_Ok in H as (rs & Hrs & H). injection H as <-. simpl.
  destruct Hg as [->|Hg]; [left|right; eauto].
  apply enrich_Ok in Hr as (Hs & _). exact Hs.
Qed.

(** ** Organization normalization (lines 41-49) *)

Lemma isin_In (s : string) (l : list string) : isin (Some s) l = true <-> In s l.
Proof.
  simpl. rewrite existsb_exists. split.
  - intros (x & Hx & E). apply String.eqb_eq in E. congruence.
  - intros H. exists s. split; auto. apply String.eqb_refl.
Qed.

Lemma isin_not_In (s : string) (l : list string) : isin (Some s) l = false <-> ~ In s l.
Proof. rewrite <- isin_In. destruct (isin (Some s) l); split; congruence. Qed.

Lemma organization1_cases (org : option string) :
  (forall s, org = Some s -> In s keep_values -> organization1 org = Some s) /\
  ((forall s, org = Some s -> ~ In s keep_values) -> organization1 org = Some GPN).
Proof.
  unfold organization1. split.
  - intros s -> H. apply isin_In in H. now rewrite H.
  - intros H. destruct org as [s|]; [|reflexivity].
    specialize (H s eq_refl). apply isin_not_In in H. now rewrite H.
Qed.

(** C7: for every record, an organization name that is one of the two
    allow-listed strings is its own normalized group, and every other
    organization name (a blank one too) has the normalized group
    "Phoenix Contact - GPN". *)
Theorem organization_normalization (raw : list event) (sms : list mapping) (T : list row) :
  transform raw sms = Ok T ->
  forall r, In r T ->
    (forall s, Organization (source r) = Some s ->
               s = "PHOENIX CONTACT E-Mobility GmbH"
               \/ s = "Phoenix Contact GmbH & Co. KG - Werkzeugbau" ->
               Organization1 r = Some s)
    /\ ((forall s, Organization (source r) = Some s ->
                   s <> "PHOENIX CONTACT E-Mobility GmbH"
                   /\ s <> "Phoenix Contact GmbH & Co. KG - Werkzeugbau") ->
        Organization1 r = Some "Phoenix Contact - GPN").
Proof.
  intros H r Hr. destruct (transform_row _ _ _ H r Hr) as (_ & _ & _ & _ & -> & _).
  destruct (organization1_cases (Organization (source r))) as [Hk Hf]. split.
  - intros s Hs [->| ->]; apply Hk; simpl; auto.
  - intros Hn. apply Hf. intros s Hs [E|[E|[]]]; destruct (Hn s Hs); congruence.
Qed.

(** ** Test-record exclusion (line 32) *)

Lemma prefix_app (p s : string) :
  prefix p s = true <-> exists post, s = p ++ post.
Proof.
  revert p. induction s as [|c s IH]; intros p; simpl.
  - destruct p as [|a p].
    + split; [intros _; exists ""; reflexivity|reflexivity].
    + split; [discriminate|]. intros (post & E). discriminate.
  - destruct p as [|a p]; simpl.
    + split; eauto.
    + destruct (ascii_dec a c) as [->|Hne].
      * rewrite IH. split; intros (post & E); exists post; congruence.
      * split; [discriminate|]. intros (post & E). congruence.
Qed.

Lemma contains_app (p s : string) :
  contains p s = true <-> exists pre post, s = pre ++ p ++ post.
Proof.
  induction s as [|c s IH]; cbn [contains]; rewrite orb_true_iff, prefix_app.
  - split.
    + intros [(post & E)|H]; [exists "", post; exact E|discriminate].
    + intros (pre & post & E). left. destruct pre; [eauto|discriminate].
  - rewrite IH. split.
    + intros [(post & E)|(pre & post & E)].
      * exists "", post. exact E.
      * exists (String c pre), post. simpl. congruence.
    + intros (pre & post & E). destruct pre as [|c' pre]; [left; eauto|].
      right. simpl in E. injection E as <- E. eauto.
Qed.

Lemma lower_app (a b : string) : lower (a ++ b) = lower a ++ lower b.
Proof. induction a; simpl; congruence. Qed.

Lemma lower_split (s a b : string) :
  lower s = a ++ b -> exists a' b', s = a' ++ b' /\ lower a' = a /\ lower b' = b.
Proof.
  revert s. induction a as [|c a IH]; intros s E; simpl in *.
  - exists "", s. auto.
  - destruct s as [|c' s]; [discriminate|]. simpl in E. injection E as Ec E.
    destruct (IH _ E) as (a' & b' & -> & <- & <-).
    exists (String c' a'), b'. simpl. rewrite Ec. auto.
Qed.

(** The test of line 32 is the case-insensitive test of the specification. *)
Lemma name_is_test_spec (s : string) :
  name_is_test (Some s) = true <-> mentions_test s.
Proof.
  unfold name_is_test, mentions_test. rewrite contains_app. split.
  - intros (pre & post & E).
    apply lower_split in E as (pre' & rest & -> & _ & E).
    apply lower_split in E as (u & post' & -> & E & _). eauto.
  - intros (pre & u & post & -> & E).
    exists (lower pre), (lower post). now rewrite !lower_app, E.
Qed.

(** C8: every event row whose name field contains "test" in any letter
    case is absent from the transformed set, and every event row whose name
    field is null is present in it. *)
Theorem test_record_exclusion (raw : list event) (sms : list mapping) (T : list row) :
  transform raw sms = Ok T ->
  forall e, In e raw ->
    (forall s, Name e = Some s -> mentions_test s -> ~ In e (map source T))
    /\ (Name e = None -> In e (map source T)).
Proof.
  intros H e He. split.
  - intros s Hs Ht Hin. apply in_map_iff in Hin as (r & <- & Hr).
    destruct (transform_row _ _ _ H r Hr) as (_ & _ & Hn & _).
    rewrite Hs in Hn. apply name_is_test_spec in Ht. congruence.
  - intros Hs. apply (transform_keeps _ _ _ H e He). now rewrite Hs.
Qed.

(** ** The left join (lines 35-37) *)

Lemma key_eqb_eq (a b : option Z) : key_eqb a b = true <-> a = b.
Proof.
  destruct a as [x|], b as [y|]; simpl; try (split; congruence).
  rewrite Z.eqb_eq. split; congruence.
Qed.







(** ** Month and month name (lines 51-54) *)

Lemma check_date_month (t d : date) :
  check_date t = Some d -> d = t /\ 1 <= dt_month d <= 12.
Proof.
  unfold check_date.
  match goal with |- context [if ?c then _ else _] => destruct c eqn:E end;
    [|discriminate].
  intros H; injection H as <-.
  repeat rewrite andb_true_iff in E. destruct E as [[[[[_ E1] E2] _] _] _].
  apply Z.leb_le in E1, E2. auto.
Qed.

Lemma to_datetime_month (c : date_cell) (d : date) :
  to_datetime c = Some d -> 1 <= dt_month d <= 12.
Proof.
  destruct c as [|s|t]; simpl; [discriminate| |].
  - unfold strptime.
    destruct (split_slash (codepoints s)) as [|a [|b [|y [|]]]]; try discriminate.
    destruct (parse_day a), (parse_month b), (parse_year y); try discriminate.
    intros H. now apply check_date_month in H.
  - intros H. now apply check_date_month in H.
Qed.

Lemma month_in_range (m : Z) :
  1 <= m <= 12 ->
  m = 1 \/ m = 2 \/ m = 3 \/ m = 4 \/ m = 5 \/ m = 6 \/
  m = 7 \/ m = 8 \/ m = 9 \/ m = 10 \/ m = 11 \/ m = 12.
Proof. lia. Qed.

Ltac each_month H :=
  apply month_in_range in H;
  repeat (destruct H as [H|H]; [subst|]); subst.

(** On an integer month column, the lambda of line 52 gives the English
    month name, which is one of the categories of line 54. *)
Lemma month_name_of_int (m : Z) :
  1 <= m <= 12 ->
  month_name_of (PyInt m) = Ok (english_month_name m)
  /\ Categorical month_order (english_month_name m) = Some (english_month_name m)
  /\ In (english_month_name m) month_order.
Proof. intros H. each_month H; vm_compute; intuition. Qed.

(** On a float64 month column, the lambda of line 52 raises on every month
    that is not NaN. *)
Lemma month_name_of_float (x : float64) :
  month_name_of (PyFloat x) = match x with fNaN => Ok "" | _ => Raise TypeError end.
Proof. destruct x; reflexivity. Qed.

Lemma transform_month (raw : list event) (sms : list mapping) (T : list row) :
  transform raw sms = Ok T ->
  forall r, In r T ->
    match entry_date r with
    | Some d => month r = PyInt (dt_month d)
    | None => month r = PyFloat fNaN
    end.
Proof.
  unfold transform. intros H r Hr. apply bind_Ok in H as (df1 & _ & H).
  apply (mapM_Ok_In _ _ _ H) in Hr as (x & Hx & Hr).
  apply enrich_Ok in Hr as (Hs & _ & _ & Hd & _ & Hm & Hl & _).
  destruct (existsb isNaT _) eqn:Hh in Hm.
  - rewrite Hm in Hl. unfold month_value in *.
    destruct (entry_date r); [discriminate Hl|exact Hm].
  - destruct (entry_date r) as [d|] eqn:E; [exact Hm|].
    assert (existsb isNaT (merge_left df1 (drop_duplicates sms)) = true); [|congruence].
    apply existsb_exists. exists x. split; auto.
    unfold isNaT. rewrite <- Hs, <- Hd. reflexivity.
Qed.

(** X15: for every record of a transformed table, the month name is the
    English calendar month name of the parsed entry date's month, and it is
    null when the date is null: line 52 yields the empty string for a null
    month, which is not one of the categories, and line 54 turns it into a
    null.  The month-name attribute is a categorical over the twelve month
    names January to December in calendar order. *)
Theorem month_name_derivation (raw : list event) (sms : list mapping) (T : list row) :
  transform raw sms = Ok T ->
  forall r, In r T ->
    (forall d, entry_date r = Some d ->
               month_name r = Some (english_month_name (dt_month d))
               /\ 1 <= dt_month d <= 12)
    /\ (entry_date r = None -> month_label r = "" /\ month_name r = None)
    /\ (forall m, month_name r = Some m -> In m month_order)
    /\ month_order = ["January"; "February"; "March"; "April"; "May"; "June";
                      "July"; "August"; "September"; "October"; "November";
                      "December"].
Proof.
  intros H r Hr.
  destruct (transform_row _ _ _ H r Hr) as (_ & _ & _ & Hd & _ & Hl & Hn).
  pose proof (transform_month _ _ _ H r Hr) as Hm.
  destruct (entry_date r) as [d|] eqn:E.
  - symmetry in Hd. apply to_datetime_month in Hd.
    destruct (month_name_of_int _ Hd) as (Hi & Hc & Hin).
    rewrite Hm, Hi in Hl. injection Hl as Hl. rewrite <- Hl, Hc in Hn.
    split; [|split; [discriminate|split; [|reflexivity]]].
    + intros d' E'. injection E' as <-. split; [exact Hn|exact Hd].
    + intros m Em. rewrite Hn in Em. injection Em as <-. exact Hin.
  - rewrite Hm in Hl. injection Hl as Hl. rewrite <- Hl in Hn.
    split; [discriminate|split; [auto|split; [|reflexivity]]].
    intros m Em. rewrite Hn in Em. discriminate Em.
Qed.

(** The script stops at line 52 when some entry dates parse and others do
    not: the month column is then float64 and [calendar.month_name] is
    indexed with a float. *)
Lemma enrich_float_column (x : event * option Z * option string) :
  enrich true x = if isNaT x then enrich true x else Raise TypeError.
Proof.
  unfold enrich, isNaT, month_value.
  destruct (to_datetime _); reflexivity.
Qed.

Lemma enrich_Raise (h : bool) (x : event * option Z * option string) (e : exn) :
  enrich h x = Raise e -> e = TypeError /\ h = true /\ isNaT x = false.
Proof.
  unfold enrich, isNaT, month_value. destruct h.
  - destruct (to_datetime _); simpl; [|discriminate].
    intros H; injection H as <-. auto.
  - destruct (to_datetime _) as [d|] eqn:E; simpl; [|discriminate].
    apply to_datetime_month in E. destruct (month_name_of_int _ E) as (-> & _).
    discriminate.
Qed.

Lemma transform_mixed_dates (raw : list event) (sms : list mapping)
      (df1 : list (event * option Z)) :
  load_events raw = Ok df1 ->
  existsb isNaT (merge_left df1 (drop_duplicates sms)) = true ->
  forallb isNaT (merge_left df1 (drop_duplicates sms)) = false ->
  transform raw sms = Raise TypeError.
Proof.
  intros H1 Hsome Hnot. unfold transform. rewrite H1. simpl. rewrite Hsome.
  assert (Hx : exists x, In x (merge_left df1 (drop_duplicates sms)) /\ isNaT x = false).
  { revert Hnot. generalize (merge_left df1 (drop_duplicates sms)) as df.
    induction df as [|x df IH]; simpl; [discriminate|].
    destruct (isNaT x) eqn:E; simpl; [|eauto].
    intros H. destruct (IH H) as (y & ? & ?). eauto. }
  destruct Hx as (x & Hx & Hn).
  apply (mapM_Raise _ _ x TypeError Hx).
  - rewrite enrich_float_column, Hn. reflexivity.
  - intros a e _ He. now apply enrich_Raise in He.
Qed.

(** It completes when all entry dates parse, and when none does. *)
Lemma transform_uniform_dates (raw : list event) (sms : list mapping)
      (df1 : list (event * option Z)) :
  load_events raw = Ok df1 ->
  existsb isNaT (merge_left df1 (drop_duplicates sms)) = false
  \/ forallb isNaT (merge_left df1 (drop_duplicates sms)) = true ->
  exists T, transform raw sms = Ok T.
Proof.
  intros H1 Hu. unfold transform. rewrite H1. simpl.
  set (df := merge_left df1 (drop_duplicates sms)) in *.
  assert (Hok : forall x, In x df -> exists r, enrich (existsb isNaT df) x = Ok r).
  { intros x Hx. destruct (enrich _ x) as [r|e] eqn:E; [eauto|].
    apply enrich_Raise in E as (_ & Hh & Hn). destruct Hu as [Hu|Hu]; [congruence|].
    rewrite forallb_forall in Hu. rewrite (Hu x Hx) in Hn. discriminate. }
  revert Hok. generalize (existsb isNaT df) as h. clear.
  induction df as [|x df IH]; simpl; intros h Hok; [eauto|].
  destruct (Hok x (or_introl eq_refl)) as (r & ->).
  destruct (IH h) as (T & ->); [auto|]. simpl. eauto.
Qed.

(** ** The filter (lines 65-67) *)

Lemma isin_Some (x : option string) (l : list string) :
  isin x l = true -> exists s, x = Some s /\ In s l.
Proof.
  destruct x as [s|]; [|discriminate]. intros H. apply isin_In in H. eauto.
Qed.

Lemma filtered_df_In (orgs months : list string) (df : list row) (r : row) :
  In r (filtered_df orgs months df) <->
  In r df /\ (exists o, Organization1 r = Some o /\ In o orgs)
  /\ (exists m, month_name r = Some m /\ In m months).
Proof.
  unfold filtered_df. rewrite filter_In, andb_true_iff. split.
  - intros (? & Ho & Hm). apply isin_Some in Ho, Hm. auto.
  - intros (? & (o & Eo & Ho) & (m & Em & Hm)). rewrite Eo, Em.
    split; auto. split; now apply isin_In.
Qed.

(** The month name of a row, by cases on its entry date. *)
Lemma transform_month_name (raw : list event) (sms : list mapping) (T : list row) :
  transform raw sms = Ok T ->
  forall r, In r T ->
    match entry_date r with
    | Some d =>
        1 <= dt_month d <= 12
        /\ month_name r = Some (english_month_name (dt_month d))
        /\ In (english_month_name (dt_month d)) month_order
    | None => month_label r = "" /\ month_name r = None
    end.
Proof.
  intros H r Hr.
  destruct (transform_row _ _ _ H r Hr) as (_ & _ & _ & Hd & _ & Hl & Hn).
  pose proof (transform_month _ _ _ H r Hr) as Hm.
  destruct (entry_date r) as [d|] eqn:E.
  - symmetry in Hd. apply to_datetime_month in Hd.
    destruct (month_name_of_int _ Hd) as (Hi & Hc & Hin).
    rewrite Hm, Hi in Hl. injection Hl as Hl. rewrite <- Hl, Hc in Hn. auto.
  - rewrite Hm in Hl. injection Hl as Hl. rewrite <- Hl in Hn. auto.
Qed.

(** C10: whatever the two selections, every record of the filtered result
    has a non-null month name, one of the twelve calendar months, and a
    parsed entry date; a record whose entry date did not parse is in no
    filtered result, not even when all twelve months are selected. *)
Theorem filtered_months_not_null (raw : list event) (sms : list mapping) (T : list row) :
  transform raw sms = Ok T ->
  forall orgs months : list string,
    (forall r, In r (filtered_df orgs months T) ->
               (exists m, month_name r = Some m /\ In m month_order /\ In m months)
               /\ entry_date r <> None)
    /\ (forall r, In r T -> entry_date r = None ->
                  ~ In r (filtered_df orgs months T)
                  /\ ~ In r (filtered_df orgs month_order T)).
Proof.
  intros H orgs months.
  assert (Hnull : forall r ms, In r T -> entry_date r = None ->
                               ~ In r (filtered_df orgs ms T)).
  { intros r ms Hr E Hin. apply filtered_df_In in Hin as (_ & _ & (m & Em & _)).
    pose proof (transform_month_name _ _ _ H r Hr) as Hn. rewrite E in Hn.
    destruct Hn as [_ Hn']. congruence. }
  split.
  - intros r Hin. pose proof Hin as Hin'.
    apply filtered_df_In in Hin as (Hr & _ & (m & Em & Hm)).
    pose proof (transform_month_name _ _ _ H r Hr) as Hdom.
    split; [|intros E; exact (Hnull r months Hr E Hin')].
    exists m. destruct (entry_date r) as [d|].
    + destruct Hdom as (_ & Hd & Hi). rewrite Em in Hd. injection Hd as ->. auto.
    + destruct Hdom as [_ Hd]. congruence.
  - intros r Hr E. split; now apply Hnull.
Qed.

(** ** Sorted group keys *)

Lemma ltb_lt (x y : string) : String.ltb x y = true <-> String_as_OT.lt x y.
Proof.
  rewrite <- String_as_OT.cmp_lt. unfold String.ltb, String_as_OT.cmp.
  destruct (String.compare x y); split; congruence.
Qed.

Lemma not_ltb_gt (x y : string) :
  String.ltb x y = false -> x <> y -> String_as_OT.lt y x.
Proof.
  intros Hlt Hne. apply String_as_OT.cmp_lt.
  rewrite String_as_OT.cmp_antisym. unfold String.ltb, String_as_OT.cmp in *.
  destruct (String.compare x y) eqn:E; try discriminate; [|reflexivity].
  apply String.compare_eq_iff in E. contradiction.
Qed.

Lemma insert_sorted_In (x y : string) (l : list string) :
  In y (insert_sorted x l) <-> y = x \/ In y l.
Proof.
  induction l as [|a l IH]; simpl.
  - intuition.
  - destruct (String.eqb_spec x a) as [->|Hne]; [simpl; intuition|].
    destruct (String.ltb x a); simpl; [intuition|]. rewrite IH. intuition.
Qed.

Lemma sorted_unique_In (x : string) (l : list string) :
  In x (sorted_unique l) <-> In x l.
Proof.
  induction l as [|a l IH]; simpl; [tauto|].
  rewrite insert_sorted_In, IH. intuition.
Qed.

Lemma insert_sorted_sorted (x : string) (l : list string) :
  StronglySorted String_as_OT.lt l -> StronglySorted String_as_OT.lt (insert_sorted x l).
Proof.
  induction 1 as [|a l Hs IH Ha]; simpl.
  - repeat constructor.
  - destruct (String.eqb_spec x a) as [->|Hne]; [now constructor|].
    destruct (String.ltb x a) eqn:E.
    + apply ltb_lt in E. constructor; [now constructor|].
      constructor; [exact E|]. rewrite Forall_forall in *.
      intros y Hy. exact (String_as_OT.lt_trans _ _ _ E (Ha y Hy)).
    + constructor; [exact IH|]. rewrite Forall_forall in *.
      intros y Hy. apply insert_sorted_In in Hy as [->|Hy]; [|auto].
      now apply not_ltb_gt.
Qed.

Lemma sorted_unique_sorted (l : list string) :
  StronglySorted String_as_OT.lt (sorted_unique l).
Proof.
  induction l; simpl; [constructor|now apply insert_sorted_sorted].
Qed.

Lemma sorted_NoDup (l : list string) :
  StronglySorted String_as_OT.lt l -> NoDup l.
Proof.
  induction 1 as [|a l Hs IH Ha]; constructor; [|exact IH].
  intros Hin. rewrite Forall_forall in Ha.
  exact (String_as_OT.lt_not_eq _ _ (Ha a Hin) eq_refl).
Qed.

Lemma sorted_unique_NoDup (l : list string) : NoDup (sorted_unique l).
Proof. apply sorted_NoDup, sorted_unique_sorted. Qed.

Lemma values_In (col : row -> option string) (df : list row) (v : string) :
  In v (values col df) <-> exists r, In r df /\ col r = Some v.
Proof.
  unfold values. rewrite in_flat_map. split.
  - intros (r & Hr & Hv). exists r. split; auto.
    destruct (col r); simpl in Hv; [|tauto]. destruct Hv as [->|[]]. reflexivity.
  - intros (r & Hr & E). exists r. split; auto. rewrite E. now left.
Qed.

(** ** Group sizes *)

Lemma label_eqb_eq (a b : option string) : label_eqb a b = true <-> a = b.
Proof.
  destruct a as [x|], b as [y|]; simpl; try (split; congruence).
  rewrite String.eqb_eq. split; congruence.
Qed.

Lemma has_true (col : row -> option string) (v : string) (r : row) :
  has col v r = true <-> col r = Some v.
Proof. apply label_eqb_eq. Qed.

Lemma filter_nil_iff {A : Type} (f : A -> bool) (l : list A) :
  filter f l = [] <-> forall x, In x l -> f x = false.
Proof.
  induction l as [|a l IH]; simpl; [tauto|].
  destruct (f a) eqn:E.
  - split; [discriminate|]. intros H. rewrite (H a) in E by auto. discriminate.
  - rewrite IH. split; [intros H x [<-|Hx]; auto|auto].
Qed.

Lemma filter_all {A : Type} (f : A -> bool) (l : list A) :
  (forall x, In x l -> f x = true) -> filter f l = l.
Proof.
  induction l as [|a l IH]; simpl; intros H; [reflexivity|].
  rewrite (H a) by auto. f_equal. auto.
Qed.

Lemma size_zero (ka kb : row -> option string) (df : list row) (a b : string) :
  size ka kb df a b = 0%nat <->
  forall r, In r df -> ~ (ka r = Some a /\ kb r = Some b).
Proof.
  unfold size. rewrite length_zero_iff_nil, filter_nil_iff.
  split; intros H r Hr; specialize (H r Hr).
  - rewrite <- !has_true, <- andb_true_iff. congruence.
  - rewrite <- !has_true, <- andb_true_iff in H. now destruct (_ && _).
Qed.

Lemma assoc_combine_map {A : Type} (f : string -> A) (l : list string) (x : string) :
  assoc x (combine l (map f l)) = if existsb (String.eqb x) l then Some (f x) else None.
Proof.
  induction l as [|a l IH]; simpl; [reflexivity|].
  destruct (String.eqb_spec x a) as [->|Hne]; simpl; [reflexivity|exact IH].
Qed.

(** ** Pivot tables *)

Lemma existsb_eqb_In (x : string) (l : list string) :
  existsb (String.eqb x) l = true <-> In x l.
Proof. exact (isin_In x l). Qed.

(** A month that is not among the observed categories has no record. *)
Lemma unobserved_size (observed : bool) (key : row -> option string)
      (df : list row) (i m : string) :
  In m month_order ->
  existsb (String.eqb m) (categorical_levels observed month_name key month_order df) = false ->
  size key month_name df i m = 0%nat /\ size month_name key df m i = 0%nat.
Proof.
  intros Hm Hno.
  assert (Hnone : forall r, In r df -> ~ (month_name r = Some m /\ is_some (key r) = true)).
  { intros r Hr [E1 E2].
    assert (In m (categorical_levels observed month_name key month_order df));
      [|apply existsb_eqb_In in H; congruence].
    unfold categorical_levels. destruct observed; [|exact Hm].
    apply filter_In. split; [exact Hm|]. apply existsb_exists. exists r.
    split; [exact Hr|]. apply andb_true_iff. split; [now apply has_true|exact E2]. }
  split; apply size_zero; intros r Hr [E1 E2]; apply (Hnone r Hr).
  - rewrite E1. auto.
  - rewrite E2. auto.
Qed.

(** The table of lines 94-95 and 108-109, whatever [observed] is. *)
Lemma by_month_table (observed : bool) (key : row -> option string) (df : list row) :
  by_month observed key df =
  {| ct_index := plain_levels observed key month_name df;
     ct_columns := month_order;
     ct_cells :=
       map (fun i => map (fun m => Some (size key month_name df i m)) month_order)
           (plain_levels observed key month_name df) |}.
Proof.
  unfold by_month, reindex_columns, pivot_table. cbn [ct_index ct_columns ct_cells].
  f_equal. rewrite map_map. apply map_ext. intros i. apply map_ext_in. intros m Hm.
  rewrite (assoc_combine_map (fun c => Some (size key month_name df i c))).
  destruct (existsb _ _) eqn:E; [reflexivity|].
  now rewrite (proj1 (unobserved_size observed key df i m Hm E)).
Qed.

(** The table of lines 135 and 141: a month with no group is a row of NaN. *)
Lemma month_by_table (observed : bool) (key : row -> option string) (df : list row) :
  month_by observed key df =
  {| ct_index := month_order;
     ct_columns := plain_levels observed key month_name df;
     ct_cells :=
       map (fun m =>
              if existsb (String.eqb m)
                         (categorical_levels observed month_name key month_order df)
              then map (fun c => Some (size month_name key df m c))
                       (plain_levels observed key month_name df)
              else map (fun _ => None) (plain_levels observed key month_name df))
           month_order |}.
Proof.
  unfold month_by, reindex, pivot_table. cbn [ct_index ct_columns ct_cells].
  f_equal. apply map_ext. intros m.
  rewrite (assoc_combine_map
             (fun i => map (fun c => Some (size month_name key df i c))
                           (plain_levels observed key month_name df))).
  now destruct (existsb _ _).
Qed.

(** In a filtered table every month name is set, so the groups of a plain
    key do not depend on [observed]. *)
Lemma plain_levels_filtered (observed : bool) (key : row -> option string) (df : list row) :
  (forall r, In r df -> is_some (month_name r) = true) ->
  plain_levels observed key month_name df = sorted_unique (values key df).
Proof.
  intros H. unfold plain_levels. destruct observed; [|reflexivity].
  now rewrite filter_all.
Qed.

Lemma df_gpn_In (filtered : list row) (r : row) :
  In r (df_gpn filtered) <-> In r filtered /\ Organization1 r = Some GPN.
Proof. unfold df_gpn. now rewrite filter_In, label_eqb_eq. Qed.

Lemma df_gpn_month (orgs months : list string) (df : list row) :
  forall r, In r (df_gpn (filtered_df orgs months df)) -> is_some (month_name r) = true.
Proof.
  intros r Hr. apply df_gpn_In in Hr as [Hr _].
  apply filtered_df_In in Hr as (_ & _ & (m & -> & _)). reflexivity.
Qed.

(** ** The cluster-by-month table (lines 92-95) *)

(** C3 (amended): for the fallback-organization subset, the cluster-by-month
    table has one row per cluster label that occurs in the subset, in
    ascending order, and no row for the records whose cluster is null, which
    are counted nowhere; its columns are the twelve month names in calendar
    order; each cell is the number of records of the subset with that
    cluster and that month, zero when there is none. *)
Theorem cluster_by_month (observed : bool) (orgs months : list string) (df : list row) :
  let gpn := df_gpn (filtered_df orgs months df) in
  let t := pivot_cluster observed gpn in
  ct_columns t = month_order
  /\ ct_index t = sorted_unique (values Groups gpn)
  /\ NoDup (ct_index t)
  /\ (forall g, In g (ct_index t) <-> exists r, In r gpn /\ Groups r = Some g)
  /\ ct_cells t =
     map (fun g => map (fun m => Some (size Groups month_name gpn g m)) month_order)
         (ct_index t).
Proof.
  intros gpn t. unfold t, pivot_cluster. rewrite by_month_table.
  cbn [ct_index ct_columns ct_cells].
  rewrite (plain_levels_filtered observed Groups gpn (df_gpn_month orgs months df)).
  split; [reflexivity|]. split; [reflexivity|].
  split; [apply sorted_unique_NoDup|]. split; [|reflexivity].
  intros g. now rewrite sorted_unique_In, values_In.
Qed.

(** ** Monthly counts (lines 76-77) *)

Lemma groupby_size_In (observed : bool) (key cat : row -> option string)
      (categories : list string) (df : list row) (a b : string) (n : nat) :
  In (a, b, n) (groupby_size observed key cat categories df) <->
  (exists r, In r df /\ key r = Some a) /\ In b categories
  /\ n = size key cat df a b /\ (observed = true -> n <> 0%nat).
Proof.
  unfold groupby_size. rewrite in_flat_map. split.
  - intros (a' & Ha & H). apply in_flat_map in H as (b' & Hb & H).
    apply sorted_unique_In, values_In in Ha.
    destruct observed; simpl in H.
    + destruct (Nat.eqb_spec (size key cat df a' b') 0) as [E|E]; [destruct H|].
      destruct H as [H|[]]. injection H as <- <- <-.
      repeat split; auto.
    + destruct H as [H|[]]. injection H as <- <- <-.
      repeat split; auto. discriminate.
  - intros (Ha & Hb & -> & Hn). exists a. split.
    + now apply sorted_unique_In, values_In.
    + apply in_flat_map. exists b. split; [exact Hb|].
      destruct observed; simpl; [|now left].
      destruct (Nat.eqb_spec (size key cat df a b) 0) as [E|E]; [|now left].
      now destruct Hn.
Qed.

(** C6, as stated, fails when unobserved categories are kept (the default up
    to pandas 2.x): an organization that occurs has a row for each of the
    twelve months, with count zero where it has no record. *)
Lemma monthly_counts_counterexample :
  filtered_df [GPN] month_order [example_row] = [example_row]
  /\ In (GPN, "January", 0%nat) (monthly_counts false [example_row])
  /\ List.length (monthly_counts false [example_row]) = 12%nat.
Proof. repeat split; vm_compute; auto. Qed.

(** C6 (amended): the monthly counts have exactly one kind of row: an
    organization group that occurs in the filtered set, one of the twelve
    month names, and the number of filtered records of that group and month.
    When the group-by keeps unobserved categories ([observed = false], the
    default up to pandas 2.x) every such combination has a row, zero-filled;
    when it drops them ([observed = true], the default from pandas 3.0 on)
    the combinations with count zero have no row.  The tables of the two
    subset charts are zero-filled in both cases. *)
Theorem monthly_counts_rows (observed : bool) (filtered : list row) :
  (forall o m n,
      In (o, m, n) (monthly_counts observed filtered) <->
      (exists r, In r filtered /\ Organization1 r = Some o)
      /\ In m month_order
      /\ n = size Organization1 month_name filtered o m
      /\ (observed = true -> n <> 0%nat))
  /\ (forall key cells c,
         In cells (ct_cells (by_month observed key filtered)) -> In c cells ->
         c <> None).
Proof.
  split.
  - intros o m n. apply groupby_size_In.
  - intros key cells c. rewrite by_month_table. cbn [ct_cells].
    intros Hc Hin. apply in_map_iff in Hc as (i & <- & _).
    apply in_map_iff in Hin as (m & <- & _). discriminate.
Qed.

(** ** Empty selections (lines 65-67, 92-93, 140) *)

Lemma isin_nil (x : option string) : isin x [] = false.
Proof. now destruct x. Qed.

Lemma filtered_df_empty_selection (orgs months : list string) (df : list row) :
  orgs = [] \/ months = [] -> filtered_df orgs months df = [].
Proof.
  intros H. unfold filtered_df. apply filter_nil_iff. intros r _.
  destruct H as [-> | ->]; rewrite isin_nil; [reflexivity|apply andb_false_r].
Qed.

Lemma plain_levels_nil (observed : bool) (key other : row -> option string) :
  plain_levels observed key other [] = [].
Proof. now destruct observed. Qed.

(** C9: when the organization selection or the month selection is empty,
    the filtered record set is empty and the event count is zero; the
    monthly counts are empty, the two charts of the fallback subset and the
    second pivot table are skipped, and the first pivot table has its twelve
    month rows but no organization column, hence no cell. *)
Theorem empty_selection (observed : bool) (df_merged : list row)
        (orgs months : list string) :
  orgs = [] \/ months = [] ->
  let R := render observed df_merged orgs months in
  filtered_df orgs months df_merged = []
  /\ total_events R = 0%nat
  /\ chart1 R = []
  /\ chart2 R = None /\ chart3 R = None /\ table2 R = None
  /\ ct_columns (table1 R) = []
  /\ (forall cells, In cells (ct_cells (table1 R)) -> cells = []).
Proof.
  intros H R. unfold R, render.
  rewrite (filtered_df_empty_selection orgs months df_merged H).
  cbn [total_events chart1 chart2 chart3 table1 table2].
  unfold pivot_table1. rewrite month_by_table. cbn [ct_columns ct_cells].
  rewrite plain_levels_nil.
  repeat split; try reflexivity.
  intros cells Hc. apply in_map_iff in Hc as (m & <- & _).
  now destruct (existsb _ _).
Qed.

Lemma empty_selection_witness :
  filtered_df [] month_order [example_row] = []
  /\ chart1 (render false [example_row] [] month_order) = []
  /\ table2 (render false [example_row] [] month_order) = None.
Proof.
  pose proof (empty_selection false [example_row] [] month_order
                              (or_introl eq_refl)) as H.
  cbv zeta in H. destruct H as (H1 & _ & H3 & _ & _ & H6 & _).
  exact (conj H1 (conj H3 H6)).
Defined.

(** ** The order of the input rows *)





Lemma Permutation_In_iff {A : Type} (l l' : list A) :
  Permutation l l' -> forall x, In x l <-> In x l'.
Proof.
  intros H x. split; apply Permutation_in; [exact H|now symmetry].
Qed.








(** ** Calendar order *)

Section Blocks.

Variables (observed : bool) (key cat : row -> option string) (df : list row).







End Blocks.


(** * Further properties of the pipeline *)

(** ** The join (line 37) *)

Lemma join_row_left (df2 : list mapping) (l : event * option Z) :
  map fst (join_row df2 l)
  = repeat l (Nat.max 1 (List.length (matches (snd l) df2))).
Proof.
  unfold join_row. destruct (matches (snd l) df2) as [|m ms]; [reflexivity|].
  change (Nat.max 1 (List.length (m :: ms))) with (S (List.length ms)).
  rewrite map_map. simpl. f_equal.
  induction ms as [|m' ms IH]; simpl; [reflexivity|now rewrite IH].
Qed.

(** X1: the left join never drops an event row and keeps the rows in their
    order: every event row appears once, or as many times in a row as the
    mapping has rows with its code. *)
Theorem merge_left_fan_out (df1 : list (event * option Z)) (df2 : list mapping) :
  map fst (merge_left df1 df2)
  = flat_map (fun l => repeat l (Nat.max 1 (List.length (matches (snd l) df2)))) df1
  /\ List.length (merge_left df1 df2)
     = list_sum (map (fun l => Nat.max 1 (List.length (matches (snd l) df2))) df1)
  /\ (List.length df1 <= List.length (merge_left df1 df2))%nat.
Proof.
  assert (H1 : map fst (merge_left df1 df2)
               = flat_map (fun l => repeat l (Nat.max 1 (List.length (matches (snd l) df2))))
                          df1).
  { unfold merge_left. induction df1 as [|l df1 IH]; simpl; [reflexivity|].
    now rewrite map_app, join_row_left, IH. }
  assert (H2 : List.length (merge_left df1 df2)
               = list_sum (map (fun l => Nat.max 1 (List.length (matches (snd l) df2))) df1)).
  { transitivity (List.length (map fst (merge_left df1 df2)));
      [symmetry; apply length_map|]. rewrite H1. clear H1.
    induction df1 as [|l df1 IH]; [reflexivity|]. cbn [flat_map map].
    rewrite length_app, repeat_length, IH. reflexivity. }
  split; [exact H1|]. split; [exact H2|]. rewrite H2. clear.
  induction df1 as [|l df1 IH]; [reflexivity|]. cbn [map List.length].
  change (list_sum (?x :: ?t)) with (x + list_sum t)%nat. lia.
Qed.

(** X2: the rows of the joined table are exactly these: an event row with
    the cluster of a mapping row that has its code, or, when no mapping row
    has its code, the event row with a null cluster. *)
Theorem merge_left_rows (df1 : list (event * option Z)) (df2 : list mapping)
        (l : event * option Z) (g : option string) :
  In (l, g) (merge_left df1 df2) <->
  In l df1
  /\ ((exists m, In m df2 /\ map_PC m = snd l /\ SMC m = g)
      \/ (g = None /\ forall m, In m df2 -> map_PC m <> snd l)).
Proof.
  unfold merge_left. rewrite in_flat_map. split.
  - intros (l' & Hl & H). unfold join_row in H.
    destruct (matches (snd l') df2) as [|m0 ms] eqn:E.
    + destruct H as [H|[]]. injection H as <- <-. split; [exact Hl|]. right.
      split; [reflexivity|]. intros m Hm Em.
      assert (Hin : In m (matches (snd l') df2)).
      { apply filter_In. split; [exact Hm|]. now apply key_eqb_eq. }
      rewrite E in Hin. destruct Hin.
    + apply (in_map_iff (fun m => (l', SMC m))) in H as (m & Hm & Hin).
      injection Hm as <- <-. rewrite <- E in Hin. apply filter_In in Hin as [Hin Hk].
      apply key_eqb_eq in Hk. split; [exact Hl|]. left. exists m. auto.
  - intros (Hl & H). exists l. split; [exact Hl|]. unfold join_row.
    destruct H as [(m & Hm & Hk & <-)|(-> & Hno)].
    + assert (Hin : In m (matches (snd l) df2)).
      { apply filter_In. split; [exact Hm|]. now apply key_eqb_eq. }
      destruct (matches (snd l) df2) as [|m0 ms]; [destruct Hin|].
      apply (in_map (fun m => (l, SMC m))). exact Hin.
    + destruct (matches (snd l) df2) as [|m0 ms] eqn:E; [now left|].
      assert (Hin : In m0 (matches (snd l) df2)) by (rewrite E; now left).
      apply filter_In in Hin as [Hin Hk]. apply key_eqb_eq in Hk.
      destruct (Hno m0 Hin). congruence.
Qed.

(** ** The cluster mapping (line 35) *)

Lemma mapping_eqb_eq (a b : mapping) : mapping_eqb a b = true <-> a = b.
Proof.
  unfold mapping_eqb. rewrite andb_true_iff, key_eqb_eq, label_eqb_eq.
  destruct a, b; simpl. split; [intros [-> ->]; reflexivity|].
  intros H; injection H as -> ->. auto.
Qed.

Lemma seen_In (m : mapping) (seen : list mapping) :
  existsb (mapping_eqb m) seen = true <-> In m seen.
Proof.
  rewrite existsb_exists. split.
  - intros (x & Hx & E). apply mapping_eqb_eq in E. congruence.
  - intros H. exists m. split; [exact H|]. now apply mapping_eqb_eq.
Qed.

Lemma drop_duplicates_from_spec (l seen : list mapping) :
  NoDup (drop_duplicates_from seen l)
  /\ forall m, In m (drop_duplicates_from seen l) <-> In m l /\ ~ In m seen.
Proof.
  revert seen. induction l as [|a l IH]; intros seen; simpl.
  - split; [constructor|]. tauto.
  - destruct (existsb (mapping_eqb a) seen) eqn:E.
    + apply seen_In in E. destruct (IH seen) as [Hn Hi]. split; [exact Hn|].
      intros m. rewrite Hi. split; [tauto|]. intros [[<-|H] Hs]; tauto.
    + assert (Ha : ~ In a seen) by (rewrite <- seen_In; congruence).
      destruct (IH (a :: seen)) as [Hn Hi]. split.
      * constructor; [|exact Hn]. rewrite Hi. simpl. tauto.
      * intros m. simpl. rewrite Hi. simpl. split.
        -- intros [<-|[H Hs]]; tauto.
        -- intros [[<-|H] Hs]; [now left|].
           destruct (mapping_eqb a m) eqn:Em.
           ++ apply mapping_eqb_eq in Em. now left.
           ++ right. split; [exact H|]. intros [->|Hs']; [|tauto].
              rewrite (proj2 (mapping_eqb_eq m m) eq_refl) in Em. discriminate.
Qed.

Lemma drop_duplicates_from_fixed (l seen : list mapping) :
  NoDup l -> (forall m, In m l -> ~ In m seen) -> drop_duplicates_from seen l = l.
Proof.
  intros Hn. revert seen. induction Hn as [|a l Ha Hn IH]; intros seen Hs; simpl.
  - reflexivity.
  - destruct (existsb (mapping_eqb a) seen) eqn:E.
    + apply seen_In in E. destruct (Hs a); simpl; auto.
    + f_equal. apply IH. intros m Hm [<-|H]; [contradiction|].
      apply (Hs m); simpl; auto.
Qed.

(** X3: the deduplicated mapping has no two equal rows, has exactly the rows
    of the sheet, and deduplicating it again changes nothing. *)
Theorem drop_duplicates_spec (sms : list mapping) :
  NoDup (drop_duplicates sms)
  /\ (forall m, In m (drop_duplicates sms) <-> In m sms)
  /\ drop_duplicates (drop_duplicates sms) = drop_duplicates sms.
Proof.
  unfold drop_duplicates.
  destruct (drop_duplicates_from_spec sms []) as [Hn Hi].
  split; [exact Hn|]. split.
  - intros m. rewrite Hi. simpl. tauto.
  - apply drop_duplicates_from_fixed; [exact Hn|]. intros m _ [].
Qed.

(** ** When lines 30-31 stop *)

Lemma existsb_map {A B : Type} (f : B -> bool) (g : A -> B) (l : list A) :
  existsb f (map g l) = existsb (fun a => f (g a)) l.
Proof. induction l as [|a l IH]; simpl; [reflexivity|]. now rewrite IH. Qed.

(** The double nearest to an integer of 2^63 or more is 2^63 or more. *)
Lemma round_to_double_large (n : Z) :
  2 ^ 63 <= n ->
  match round_to_double n with
  | Some v => 2 ^ 63 <= v
  | None => True
  end.
Proof.
  intros Hn. unfold round_to_double.
  assert (Hpos : 0 < n) by (assert (0 < 2 ^ 63) by (apply Z.pow_pos_nonneg; lia); lia).
  assert (Hk : 63 <= Z.log2 n).
  { change 63 with (Z.log2 (2 ^ 63)). now apply Z.log2_le_mono. }
  destruct (Z.log2_spec n Hpos) as [Hlo _].
  replace (Z.max 0 (Z.log2 n - 52)) with (Z.log2 n - 52) by lia.
  set (e := Z.log2 n - 52) in *.
  assert (He : 0 < 2 ^ e) by (apply Z.pow_pos_nonneg; lia).
  assert (Hsplit : 2 ^ Z.log2 n = 2 ^ 52 * 2 ^ e).
  { rewrite <- Z.pow_add_r by lia. f_equal. lia. }
  assert (Hq : 2 ^ 52 <= n / 2 ^ e).
  { apply Z.div_le_lower_bound; [exact He|]. rewrite Z.mul_comm, <- Hsplit. exact Hlo. }
  assert (H63 : 2 ^ 63 <= 2 ^ Z.log2 n) by (apply Z.pow_le_mono_r; lia).
  set (q := n / 2 ^ e) in *.
  assert (Hv : forall q', q <= q' -> 2 ^ 63 <= q' * 2 ^ e).
  { intros q' Hq'. rewrite Hsplit in H63. nia. }
  destruct (2 * (n mod 2 ^ e) <? 2 ^ e);
    [|destruct (2 ^ e <? 2 * (n mod 2 ^ e)); [|destruct (Z.even q)]];
    match goal with
    | |- context [?v <? 2 ^ 1024] => destruct (v <? 2 ^ 1024); [apply Hv; lia|exact I]
    end.
Qed.

Lemma astype_Int64_Raise (x : float64) (e : exn) :
  astype_Int64 x = Raise e ->
  (x = fInf /\ e = OverflowError) \/ (is_inf x = false /\ e = TypeError).
Proof.
  destruct x as [| |v]; simpl; [discriminate| |].
  - intros H; injection H as <-. auto.
  - destruct (v <? 2 ^ 63); [discriminate|]. intros H; injection H as <-. auto.
Qed.

(** X4: if any event row, a test record included, has a material text whose
    first bracketed digit run denotes 2^63 or more, the script stops on
    line 31, before line 32 excludes the test records: with an
    OverflowError when some bracketed number of the column is too large for
    a double, with a TypeError otherwise. *)
Theorem oversized_code_raises (raw : list event) (sms : list mapping)
        (ev : event) (s : string) (d : list Z) :
  In ev raw -> Material ev = Some s -> first_bracketed (codepoints s) d ->
  2 ^ 63 <= Z_of_digits d ->
  transform raw sms =
  Raise (if existsb (fun e => is_inf (astype_float (str_extract (Material e)))) raw
         then OverflowError else TypeError).
Proof.
  intros Hev Hs Hd Hn. unfold transform, load_events, derive_codes.
  assert (Ha : str_accessor (map Material raw) = Ok tt).
  { apply str_accessor_Ok. right. exists s. rewrite <- Hs. now apply in_map. }
  rewrite Ha. cbn [bind]. unfold astype_Int64_column. rewrite existsb_map.
  cbv beta.
  destruct (existsb (fun e => is_inf (astype_float (str_extract (Material e)))) raw)
    eqn:Einf; [reflexivity|].
  set (g := fun e => astype_float (str_extract (Material e))) in *.
  assert (Hfin : forall a, In a raw -> is_inf (g a) = false).
  { intros a Ha'. destruct (is_inf (g a)) eqn:E; [|reflexivity].
    assert (Hex : existsb (fun e => is_inf (g e)) raw = true)
      by (apply existsb_exists; eauto).
    unfold g in Hex. rewrite Hex in Einf. discriminate Einf. }
  rewrite mapM_map, (mapM_Raise (fun a => astype_Int64 (g a)) raw ev TypeError Hev).
  - reflexivity.
  - specialize (Hfin ev Hev). unfold g in *. unfold str_extract in *.
    apply re_search_spec in Hd. rewrite Hs, Hd in *. cbn [astype_float] in *.
    pose proof (round_to_double_large _ Hn) as Hr.
    destruct (round_to_double (Z_of_digits d)) as [v|]; [|discriminate Hfin].
    cbn [astype_Int64]. destruct (Z.ltb_spec v (2 ^ 63)); [lia|reflexivity].
  - intros a e Ha' He. apply astype_Int64_Raise in He as [[E _]|[_ E]]; [|exact E].
    specialize (Hfin a Ha'). rewrite E in Hfin. discriminate.
Qed.

(** ** The range of the category code (lines 30-31) *)

Lemma is_digit_value (c : Z) : is_digit c = true -> 0 <= digit_value c <= 9.
Proof.
  unfold is_digit, digit_value. intros H.
  destruct (Z.ltb_spec c 128) as [Hc|Hc].
  - apply orb_prop in H as [H|H]; apply andb_prop in H as [H1 H2].
    + apply Z.leb_le in H1, H2. lia.
    + apply Z.leb_le in H1. lia.
  - apply orb_prop in H as [H|H]; apply andb_prop in H as [H1 H2].
    + apply Z.leb_le in H1, H2. lia.
    + unfold block_of in *.
      destruct (find _ decimal_blocks) as [z|] eqn:E; [|discriminate].
      apply find_some in E as [_ E]. apply andb_prop in E as [E1 E2].
      apply Z.leb_le in E1, E2. lia.
Qed.

Lemma Z_of_digits_acc_nonneg (d : list Z) :
  forall acc, 0 <= acc -> all_digits d = true -> 0 <= Z_of_digits_acc acc d.
Proof.
  unfold all_digits.
  induction d as [|c d IH]; cbn [Z_of_digits_acc forallb]; intros acc Hacc Hd;
    [exact Hacc|].
  apply andb_prop in Hd as [Hc Hd]. apply is_digit_value in Hc.
  apply IH; [lia|exact Hd].
Qed.

Lemma round_to_double_nonneg (n v : Z) :
  0 <= n -> round_to_double n = Some v -> 0 <= v.
Proof.
  unfold round_to_double. intros Hn.
  set (e := Z.max 0 (Z.log2 n - 52)).
  assert (He : 0 < 2 ^ e) by (apply Z.pow_pos_nonneg; lia).
  assert (Hq : 0 <= n / 2 ^ e) by (apply Z.div_pos; lia).
  assert (Hv : forall q', n / 2 ^ e <= q' -> 0 <= q' * 2 ^ e) by (intros; nia).
  destruct (2 * (n mod 2 ^ e) <? 2 ^ e);
    [|destruct (2 ^ e <? 2 * (n mod 2 ^ e)); [|destruct (Z.even (n / 2 ^ e))]];
    match goal with
    | |- context [?x <? 2 ^ 1024] =>
        destruct (x <? 2 ^ 1024); [|discriminate]
    end;
    intros H; injection H as <-; apply Hv; lia.
Qed.

(** X6: a derived purchasing-category code is never negative and is below
    2^63. *)
Theorem purchasing_category_range (material : option string) :
  match purchasing_category material with
  | Ok (Some n) => 0 <= n < 2 ^ 63
  | Ok None => True
  | Raise _ => True
  end.
Proof.
  unfold purchasing_category, str_extract, astype_float.
  destruct material as [s|]; [|exact I].
  destruct (re_search (codepoints s)) as [d|] eqn:E; [|exact I].
  apply re_search_first in E as (pre & post & (_ & _ & Hd) & _).
  destruct (round_to_double (Z_of_digits d)) as [v|] eqn:Ev; [|exact I].
  cbn [astype_Int64]. destruct (Z.ltb_spec v (2 ^ 63)); [|exact I].
  split; [|assumption].
  apply (round_to_double_nonneg (Z_of_digits d)); [|exact Ev].
  apply Z_of_digits_acc_nonneg; [lia|exact Hd].
Qed.

(** ** The organization groups and the default selection (lines 45-49, 61-67) *)

Lemma organization1_values (org : option string) :
  In (organization1 org)
     [Some "PHOENIX CONTACT E-Mobility GmbH";
      Some "Phoenix Contact GmbH & Co. KG - Werkzeugbau";
      Some "Phoenix Contact - GPN"].
Proof.
  unfold organization1. destruct (isin org keep_values) eqn:E.
  - apply isin_Some in E as (s & -> & [<-|[<-|[]]]); simpl; auto.
  - simpl. auto.
Qed.

Lemma unique_In (x : string) (l : list string) : In x (unique l) <-> In x l.
Proof.
  induction l as [|a l IH]; simpl; [tauto|].
  rewrite filter_In, IH, negb_true_iff, String.eqb_neq.
  destruct (string_dec a x) as [->|Hne]; [tauto|]. split.
  - intros [H|[H _]]; tauto.
  - intros [H|H]; [tauto|]. right. auto.
Qed.

Lemma unique_NoDup (l : list string) : NoDup (unique l).
Proof.
  induction l as [|a l IH]; simpl; constructor.
  - rewrite filter_In, negb_true_iff, String.eqb_neq. tauto.
  - now apply NoDup_filter.
Qed.

(** X7: the normalized organization group of a record is never null and is
    one of three values; the organization filter therefore offers at most
    three options, each once, and they are the groups that occur. *)
Theorem normalized_groups (raw : list event) (sms : list mapping) (T : list row) :
  transform raw sms = Ok T ->
  (forall r, In r T ->
             Organization1 r = Some "PHOENIX CONTACT E-Mobility GmbH"
             \/ Organization1 r = Some "Phoenix Contact GmbH & Co. KG - Werkzeugbau"
             \/ Organization1 r = Some "Phoenix Contact - GPN")
  /\ NoDup (default_orgs T)
  /\ (forall o, In o (default_orgs T) <-> exists r, In r T /\ Organization1 r = Some o)
  /\ (List.length (default_orgs T) <= 3)%nat.
Proof.
  intros H.
  assert (H3 : forall r, In r T ->
                 In (Organization1 r)
                    [Some "PHOENIX CONTACT E-Mobility GmbH";
                     Some "Phoenix Contact GmbH & Co. KG - Werkzeugbau";
                     Some "Phoenix Contact - GPN"]).
  { intros r Hr. destruct (transform_row _ _ _ H r Hr) as (_ & _ & _ & _ & -> & _).
    apply organization1_values. }
  assert (Hin : forall o, In o (default_orgs T) <->
                          exists r, In r T /\ Organization1 r = Some o).
  { intros o. unfold default_orgs. now rewrite unique_In, values_In. }
  split; [|split; [apply unique_NoDup|split; [exact Hin|]]].
  - intros r Hr. destruct (H3 r Hr) as [E|[E|[E|[]]]]; auto.
  - apply (NoDup_incl_length (l' := ["PHOENIX CONTACT E-Mobility GmbH";
                                     "Phoenix Contact GmbH & Co. KG - Werkzeugbau";
                                     "Phoenix Contact - GPN"]) (unique_NoDup _)).
    intros o Ho. apply Hin in Ho as (r & Hr & E). specialize (H3 r Hr).
    rewrite E in H3. simpl in *. destruct H3 as [E'|[E'|[E'|[]]]]; injection E' as <-; auto.
Qed.

(** A completed run has a date on every row or on none. *)
Lemma transform_dates_uniform (raw : list event) (sms : list mapping) (T : list row) :
  transform raw sms = Ok T ->
  (forall r, In r T -> entry_date r = None)
  \/ (forall r, In r T -> entry_date r <> None).
Proof.
  unfold transform. intros H. apply bind_Ok in H as (df1 & _ & H).
  set (df := merge_left df1 (drop_duplicates sms)) in *.
  destruct (existsb isNaT df) eqn:Hh; [left|right]; intros r Hr;
    apply (mapM_Ok_In _ _ _ H) in Hr as (x & Hx & Hr).
  - rewrite enrich_float_column in Hr. destruct (isNaT x) eqn:En; [|discriminate].
    apply enrich_Ok in Hr as (Hs & _ & _ & Hd & _). rewrite Hd, Hs.
    unfold isNaT in En. now destruct (to_datetime _).
  - assert (En : isNaT x = false).
    { destruct (isNaT x) eqn:En; [|reflexivity].
      assert (existsb isNaT df = true) by (apply existsb_exists; eauto). congruence. }
    apply enrich_Ok in Hr as (Hs & _ & _ & Hd & _). rewrite Hd, Hs.
    unfold isNaT in En. intros E. rewrite E in En. discriminate En.
Qed.

(** X8: with the default selections (all organization groups that occur,
    all twelve months) the filter keeps every record, unless the records
    have no parsed entry date, in which case it keeps none. *)
Theorem default_selection (raw : list event) (sms : list mapping) (T : list row) :
  transform raw sms = Ok T ->
  filtered_df (default_orgs T) month_order T
  = if existsb (fun r => negb (is_some (entry_date r))) T then [] else T.
Proof.
  intros H. destruct (transform_dates_uniform _ _ _ H) as [Hnone|Hall].
  - assert (E : filtered_df (default_orgs T) month_order T = []).
    { apply filter_nil_iff. intros r Hr.
      pose proof (transform_month_name _ _ _ H r Hr) as Hm.
      rewrite (Hnone r Hr) in Hm. destruct Hm as [_ ->]. apply andb_false_r. }
    rewrite E. destruct T as [|r T]; [reflexivity|].
    simpl. now rewrite (Hnone r (or_introl eq_refl)).
  - assert (E : existsb (fun r => negb (is_some (entry_date r))) T = false).
    { destruct (existsb _ T) eqn:E; [|reflexivity].
      apply existsb_exists in E as (r & Hr & E). specialize (Hall r Hr).
      destruct (entry_date r); [discriminate|congruence]. }
    rewrite E. apply filter_all. intros r Hr.
    pose proof (transform_month_name _ _ _ H r Hr) as Hm. specialize (Hall r Hr).
    destruct (entry_date r) as [d|]; [|congruence]. destruct Hm as (_ & -> & Hin).
    apply andb_true_iff. split; [|now apply isin_In].
    destruct (transform_row _ _ _ H r Hr) as (_ & _ & _ & _ & Ho & _).
    destruct (organization1_values (Organization (source r))) as [E1|[E1|[E1|[]]]];
      rewrite <- Ho in E1; rewrite <- E1; apply isin_In; unfold default_orgs;
      apply unique_In, values_In; eauto.
Qed.

(** ** Counting records by groups *)

Lemma length_filter_or {A : Type} (f g : A -> bool) (l : list A) :
  (forall x, In x l -> f x = true -> g x = true -> False) ->
  List.length (filter (fun x => f x || g x) l)
  = (List.length (filter f l) + List.length (filter g l))%nat.
Proof.
  induction l as [|a l IH]; intros H; simpl; [reflexivity|].
  assert (IH' := IH (fun x Hx => H x (or_intror Hx))).
  specialize (H a (or_introl eq_refl)).
  destruct (f a), (g a); simpl; try lia; destruct (H eq_refl eq_refl).
Qed.

Lemma isin_cons (x : option string) (a : string) (l : list string) :
  isin x (a :: l) = label_eqb x (Some a) || isin x l.
Proof. destruct x; reflexivity. Qed.

(** The groups of a key partition the records whose key is among them. *)
Lemma sum_group_sizes (k : row -> option string) (p : row -> bool)
      (levels : list string) (df : list row) :
  NoDup levels ->
  list_sum (map (fun a => List.length (filter (fun r => has k a r && p r) df)) levels)
  = List.length (filter (fun r => isin (k r) levels && p r) df).
Proof.
  induction 1 as [|a l Ha Hn IH]; cbn [map].
  - change (list_sum []) with 0%nat. symmetry. apply length_zero_iff_nil.
    apply filter_nil_iff. intros r _. now rewrite isin_nil.
  - change (list_sum (?x :: ?t)) with (x + list_sum t)%nat. rewrite IH.
    rewrite <- length_filter_or.
    + f_equal. apply filter_ext. intros r. rewrite isin_cons. unfold has.
      now destruct (label_eqb (k r) (Some a)), (isin (k r) l), (p r).
    + intros r _ H1 H2. apply andb_prop in H1 as [H1 _], H2 as [H2 _].
      apply has_true in H1. rewrite H1 in H2. apply isin_In in H2. contradiction.
Qed.

Lemma month_order_NoDup : NoDup month_order.
Proof.
  unfold month_order, calendar_month_name, tl.
  repeat (constructor; [simpl; intuition discriminate|]). constructor.
Qed.

Lemma sum_sizes_by_category (key cat : row -> option string) (categories : list string)
      (df : list row) (a : string) :
  NoDup categories ->
  list_sum (map (fun b => size key cat df a b) categories)
  = List.length (filter (fun r => has key a r && isin (cat r) categories) df).
Proof.
  intros Hn. unfold size.
  rewrite (map_ext _ (fun b => List.length (filter (fun r => has cat b r && has key a r) df))).
  - rewrite (sum_group_sizes cat (has key a) categories df Hn).
    f_equal. apply filter_ext. intros r. apply andb_comm.
  - intros b. f_equal. apply filter_ext. intros r. apply andb_comm.
Qed.

(** The counts of all groups add up to the number of records that have both
    keys. *)
Lemma sum_sizes (key cat : row -> option string) (levels categories : list string)
      (df : list row) :
  NoDup levels -> NoDup categories ->
  list_sum (map (fun a => list_sum (map (fun b => size key cat df a b) categories)) levels)
  = List.length (filter (fun r => isin (key r) levels && isin (cat r) categories) df).
Proof.
  intros Hl Hc.
  rewrite (map_ext _ (fun a => List.length
                                 (filter (fun r => has key a r && isin (cat r) categories) df))).
  - apply sum_group_sizes. exact Hl.
  - intros a. now apply sum_sizes_by_category.
Qed.

Lemma groupby_size_total (observed : bool) (key cat : row -> option string)
      (categories : list string) (df : list row) :
  counts_total (groupby_size observed key cat categories df)
  = list_sum (map (fun a => list_sum (map (fun b => size key cat df a b) categories))
                  (sorted_unique (values key df))).
Proof.
  unfold counts_total, groupby_size.
  induction (sorted_unique (values key df)) as [|a l IH]; [reflexivity|].
  cbn [flat_map map]. rewrite map_app, list_sum_app.
  change (list_sum (?x :: ?t)) with (x + list_sum t)%nat. rewrite IH. f_equal.
  clear. induction categories as [|b cs IH]; [reflexivity|].
  cbn [flat_map map]. rewrite map_app, list_sum_app, IH.
  change (list_sum (?x :: ?t)) with (x + list_sum t)%nat. f_equal.
  destruct observed; simpl; [|lia].
  destruct (Nat.eqb_spec (size key cat df a b) 0) as [->|_]; simpl; lia.
Qed.

Lemma by_month_total (observed : bool) (key : row -> option string) (df : list row) :
  grand_total (by_month observed key df)
  = list_sum (map (fun i => list_sum (map (fun m => size key month_name df i m) month_order))
                  (plain_levels observed key month_name df)).
Proof.
  rewrite by_month_table. unfold grand_total. cbn [ct_cells].
  rewrite map_map. apply f_equal. apply map_ext. intros i. now rewrite map_map.
Qed.

Lemma month_by_total (observed : bool) (key : row -> option string) (df : list row) :
  grand_total (month_by observed key df)
  = list_sum (map (fun m => list_sum (map (fun c => size month_name key df m c)
                                          (plain_levels observed key month_name df)))
                  month_order).
Proof.
  rewrite month_by_table. unfold grand_total. cbn [ct_cells].
  rewrite map_map. apply f_equal. apply map_ext_in. intros m Hm.
  destruct (existsb _ _) eqn:E; rewrite map_map; apply f_equal; apply map_ext; intros c;
    [reflexivity|].
  simpl. symmetry. exact (proj2 (unobserved_size observed key df c m Hm E)).
Qed.

Lemma isin_levels (key : row -> option string) (df : list row) (r : row) :
  In r df -> isin (key r) (sorted_unique (values key df)) = is_some (key r).
Proof.
  intros Hr. destruct (key r) as [a|] eqn:E; [|reflexivity].
  apply isin_In, sorted_unique_In, values_In. eauto.
Qed.

(** In a table whose rows all have one of the twelve month names, the
    counts of a grouping by a key and the month name add up to the number of
    rows that have the key. *)
Lemma totals_with_months (observed : bool) (key : row -> option string) (df : list row) :
  (forall r, In r df -> isin (month_name r) month_order = true) ->
  counts_total (groupby_size observed key month_name month_order df)
  = List.length (filter (fun r => is_some (key r)) df)
  /\ grand_total (by_month observed key df)
     = List.length (filter (fun r => is_some (key r)) df)
  /\ grand_total (month_by observed key df)
     = List.length (filter (fun r => is_some (key r)) df).
Proof.
  intros Hm.
  assert (Hsome : forall r, In r df -> is_some (month_name r) = true).
  { intros r Hr. specialize (Hm r Hr). now destruct (month_name r). }
  assert (Hlev : plain_levels observed key month_name df = sorted_unique (values key df))
    by now apply plain_levels_filtered.
  assert (Hcount : List.length
                     (filter (fun r => isin (key r) (sorted_unique (values key df))
                                       && isin (month_name r) month_order) df)
                   = List.length (filter (fun r => is_some (key r)) df)).
  { f_equal. apply filter_ext_in. intros r Hr.
    now rewrite (isin_levels key df r Hr), (Hm r Hr), andb_true_r. }
  split; [|split].
  - rewrite groupby_size_total, sum_sizes;
      [exact Hcount|apply sorted_unique_NoDup|apply month_order_NoDup].
  - rewrite by_month_total, Hlev, sum_sizes;
      [exact Hcount|apply sorted_unique_NoDup|apply month_order_NoDup].
  - rewrite month_by_total, Hlev, sum_sizes;
      [|apply month_order_NoDup|apply sorted_unique_NoDup].
    rewrite <- Hcount. f_equal. apply filter_ext. intros r. apply andb_comm.
Qed.

(** ** The totals of the views (lines 76, 94, 108, 135, 141) *)

Lemma filtered_rows (raw : list event) (sms : list mapping) (T : list row)
      (orgs months : list string) :
  transform raw sms = Ok T ->
  forall r, In r (filtered_df orgs months T) ->
            isin (month_name r) month_order = true
            /\ is_some (Organization1 r) = true.
Proof.
  intros H r Hr. apply filtered_df_In in Hr as (Hr & (o & Eo & _) & (m & Em & _)).
  rewrite Eo. split; [|reflexivity].
  pose proof (transform_month_name _ _ _ H r Hr) as Hm.
  destruct (entry_date r) as [d|].
  - destruct Hm as (_ & -> & Hin). now apply isin_In.
  - destruct Hm as [_ Hm]. congruence.
Qed.

(** X9: every record of the filtered set is counted exactly once in the
    monthly counts and in the pivot table of month against organization:
    their counts add up to the number of events shown. *)
Theorem counts_add_up (observed : bool) (raw : list event) (sms : list mapping)
        (T : list row) (orgs months : list string) :
  transform raw sms = Ok T ->
  let R := render observed T orgs months in
  counts_total (chart1 R) = total_events R
  /\ grand_total (table1 R) = total_events R.
Proof.
  intros H R. unfold R, render. cbn [chart1 table1 total_events].
  set (filtered := filtered_df orgs months T).
  assert (Hm : forall r, In r filtered -> isin (month_name r) month_order = true)
    by (intros r Hr; apply (filtered_rows raw sms T orgs months H r Hr)).
  assert (Hall : filter (fun r => is_some (Organization1 r)) filtered = filtered)
    by (apply filter_all; intros r Hr; apply (filtered_rows raw sms T orgs months H r Hr)).
  destruct (totals_with_months observed Organization1 filtered Hm) as (H1 & _ & H3).
  rewrite Hall in H1, H3. split; [exact H1|exact H3].
Qed.

(** X10: the tables of the fallback subset count the records that have the
    row key and no others: the cluster tables add up to the number of subset
    records with a cluster, the organization table to the number of subset
    records with an organization name. *)
Theorem subset_totals (observed : bool) (raw : list event) (sms : list mapping)
        (T : list row) (orgs months : list string) :
  transform raw sms = Ok T ->
  let gpn := df_gpn (filtered_df orgs months T) in
  grand_total (pivot_cluster observed gpn)
  = List.length (filter (fun r => is_some (Groups r)) gpn)
  /\ grand_total (pivot_table2 observed gpn)
     = List.length (filter (fun r => is_some (Groups r)) gpn)
  /\ grand_total (pivot_org observed gpn)
     = List.length (filter (fun r => is_some (Organization (source r))) gpn).
Proof.
  intros H gpn.
  assert (Hm : forall r, In r gpn -> isin (month_name r) month_order = true).
  { intros r Hr. apply df_gpn_In in Hr as [Hr _].
    apply (filtered_rows raw sms T orgs months H r Hr). }
  destruct (totals_with_months observed Groups gpn Hm) as (_ & H2 & H3).
  destruct (totals_with_months observed (fun r => Organization (source r)) gpn Hm)
    as (_ & H4 & _).
  split; [exact H2|]. split; [exact H3|exact H4].
Qed.

(** ** The cells of the pivot table of month against organization (line 135) *)

(** X11: the pivot table of month against organization has one column per
    organization group of the filtered set, in ascending order; the row of
    a month holds the counts of the month's records, and the row of a month
    without records holds zeros when the pivot keeps unobserved categories
    and NaN when it drops them, the reindex of line 135 having no fill
    value. *)
Theorem pivot_table1_cells (observed : bool) (orgs months : list string) (df : list row) :
  let filtered := filtered_df orgs months df in
  let t := pivot_table1 observed filtered in
  ct_columns t = sorted_unique (values Organization1 filtered)
  /\ ct_cells t
     = map (fun m =>
              map (fun o =>
                     if observed && negb (existsb (has month_name m) filtered)
                     then None
                     else Some (size month_name Organization1 filtered m o))
                  (ct_columns t))
           month_order.
Proof.
  intros filtered t. unfold t, pivot_table1. rewrite month_by_table.
  cbn [ct_columns ct_cells].
  assert (Hsome : forall r, In r filtered -> is_some (month_name r) = true).
  { intros r Hr. apply filtered_df_In in Hr as (_ & _ & (m & -> & _)). reflexivity. }
  rewrite (plain_levels_filtered observed Organization1 filtered Hsome).
  split; [reflexivity|]. apply map_ext_in. intros m Hm.
  unfold categorical_levels. destruct observed; cbn [andb].
  - assert (E : existsb (String.eqb m)
                        (filter (fun c => existsb (fun r => has month_name c r
                                                            && is_some (Organization1 r))
                                                  filtered) month_order)
                = existsb (has month_name m) filtered).
    { apply eq_true_iff_eq. rewrite existsb_eqb_In, filter_In, !existsb_exists. split.
      - intros [_ (r & Hr & E)]. apply andb_prop in E as [E _]. eauto.
      - intros (r & Hr & E). split; [exact Hm|]. exists r. split; [exact Hr|].
        rewrite E. apply filtered_df_In in Hr as (_ & (o & -> & _) & _). reflexivity. }
    rewrite E. now destruct (existsb (has month_name m) filtered).
  - now rewrite (proj2 (existsb_eqb_In m month_order) Hm).
Qed.

(** ** Narrowing the selections (lines 65-67) *)

Lemma isin_incl (x : option string) (l l' : list string) :
  incl l l' -> isin x l = true -> isin x l' = true.
Proof.
  intros Hi H. apply isin_Some in H as (s & -> & Hs). apply isin_In. auto.
Qed.

Lemma filter_implied {A : Type} (f g : A -> bool) (l : list A) :
  (forall x, f x = true -> g x = true) -> filter f (filter g l) = filter f l.
Proof.
  intros H. induction l as [|a l IH]; [reflexivity|]. cbn [filter].
  destruct (g a) eqn:Eg; cbn [filter]; destruct (f a) eqn:Ef; try (now rewrite IH).
  rewrite (H a Ef) in Eg. discriminate.
Qed.

(** X12: filtering is narrowing: the filtered set of a smaller selection is
    obtained as well from the filtered set of a larger one, and filtering
    twice with the same selections changes nothing. *)
Theorem filtered_df_narrow (orgs orgs' months months' : list string) (df : list row) :
  incl orgs orgs' -> incl months months' ->
  filtered_df orgs months (filtered_df orgs' months' df) = filtered_df orgs months df
  /\ filtered_df orgs months (filtered_df orgs months df) = filtered_df orgs months df.
Proof.
  intros Ho Hm.
  assert (G : forall o o' m m', incl o o' -> incl m m' ->
                filtered_df o m (filtered_df o' m' df) = filtered_df o m df).
  { intros o o' m m' Hio Him. unfold filtered_df.
    apply filter_implied. intros r E. apply andb_prop in E as [E1 E2].
    now rewrite (isin_incl _ _ _ Hio E1), (isin_incl _ _ _ Him E2). }
  split; [now apply G|]. apply G; apply incl_refl.
Qed.

Lemma filtered_df_narrow_witness :
  incl [GPN] [GPN; "PHOENIX CONTACT E-Mobility GmbH"]
  /\ incl ["March"] month_order
  /\ filtered_df [GPN] ["March"]
       (filtered_df [GPN; "PHOENIX CONTACT E-Mobility GmbH"] month_order
                    [example_row; undated_row])
     = filtered_df [GPN] ["March"] [example_row; undated_row].
Proof.
  assert (H1 : incl [GPN] [GPN; "PHOENIX CONTACT E-Mobility GmbH"])
    by (intros x [<-|[]]; left; reflexivity).
  assert (H2 : incl ["March"] month_order)
    by (intros x [<-|[]]; vm_compute; tauto).
  split; [exact H1|]. split; [exact H2|].
  exact (proj1 (filtered_df_narrow _ _ _ _ [example_row; undated_row] H1 H2)).
Defined.

(** ** The fallback subset (lines 92, 108) *)

(** X13: the records of the fallback subset are the filtered records whose
    organization name is not allow-listed, so no row of the organization
    table of the subset is an allow-listed organization; every row of it
    is the organization name of a record of the subset. *)
Theorem fallback_subset_organizations (observed : bool) (raw : list event)
        (sms : list mapping) (T : list row) (orgs months : list string) :
  transform raw sms = Ok T ->
  let gpn := df_gpn (filtered_df orgs months T) in
  (forall r, In r gpn <->
             In r (filtered_df orgs months T)
             /\ ~ (exists s, Organization (source r) = Some s /\ In s keep_values))
  /\ (forall o, In o (ct_index (pivot_org observed gpn)) ->
                ~ In o keep_values
                /\ exists r, In r gpn /\ Organization (source r) = Some o).
Proof.
  intros H gpn.
  assert (Hg : forall r, In r gpn <->
                 In r (filtered_df orgs months T)
                 /\ ~ (exists s, Organization (source r) = Some s /\ In s keep_values)).
  { intros r. unfold gpn. rewrite df_gpn_In. split; intros [Hr Hc]; split; auto.
    - apply filtered_df_In in Hr as (Hr & _).
      destruct (transform_row _ _ _ H r Hr) as (_ & _ & _ & _ & Ho & _).
      intros (s & Es & Hs). rewrite Ho in Hc.
      destruct (organization1_cases (Organization (source r))) as [Hk _].
      rewrite (Hk s Es Hs) in Hc. injection Hc as ->.
      simpl in Hs. destruct Hs as [E|[E|[]]]; discriminate E.
    - pose proof Hr as Hr'. apply filtered_df_In in Hr' as (Hr' & _).
      destruct (transform_row _ _ _ H r Hr') as (_ & _ & _ & _ & -> & _).
      apply (organization1_cases (Organization (source r))).
      intros s Es Hs. apply Hc. eauto. }
  split; [exact Hg|]. intros o Ho. unfold pivot_org in Ho.
  rewrite by_month_table in Ho. cbn [ct_index] in Ho.
  rewrite (plain_levels_filtered observed _ gpn (df_gpn_month orgs months T)) in Ho.
  apply sorted_unique_In, values_In in Ho as (r & Hr & E).
  split; [|eauto]. intros Hk. apply Hg in Hr as [_ Hc]. apply Hc. eauto.
Qed.

(** ** Unselected months and organizations (lines 65-67, 76) *)

(** X14: the monthly counts show nothing of what is not selected: every row
    is for a selected organization group, and a row for a month that is not
    selected has count zero. *)
Theorem monthly_counts_selected (observed : bool) (orgs months : list string)
        (df : list row) (o m : string) (n : nat) :
  In (o, m, n) (monthly_counts observed (filtered_df orgs months df)) ->
  In o orgs /\ (n <> 0%nat -> In m months).
Proof.
  intros H. apply groupby_size_In in H as ((r & Hr & Eo) & _ & -> & _).
  apply filtered_df_In in Hr as (_ & (o' & Eo' & Ho') & _).
  split; [congruence|]. intros Hn.
  destruct (in_dec string_dec m months) as [Hin|Hnot]; [exact Hin|].
  destruct Hn. apply size_zero. intros r' Hr' [_ Em].
  apply filtered_df_In in Hr' as (_ & _ & (m' & Em' & Hm')). congruence.
Qed.

Lemma monthly_counts_selected_witness :
  In (GPN, "March", 1%nat) (monthly_counts false (filtered_df [GPN] ["March"] [example_row]))
  /\ In GPN [GPN].
Proof.
  assert (H : In (GPN, "March", 1%nat)
                 (monthly_counts false (filtered_df [GPN] ["March"] [example_row])))
    by (vm_compute; tauto).
  split; [exact H|].
  exact (proj1 (monthly_counts_selected false [GPN] ["March"] [example_row] _ _ _ H)).
Defined.

(** ** Entry dates that parse next to entry dates that do not (lines 38, 51-52) *)

Lemma mapM_Raise_inv {A B : Type} (f : A -> result B) (l : list A) (e : exn) :
  mapM f l = Raise e -> exists a, In a l /\ f a = Raise e.
Proof.
  induction l as [|a l IH]; simpl; [discriminate|].
  destruct (f a) as [b|e'] eqn:E; simpl.
  - destruct (mapM f l) as [bs|e'']; simpl; [discriminate|].
    intros H; injection H as <-. destruct (IH eq_refl) as (x & ? & ?). eauto.
  - intros H; injection H as <-. eauto.
Qed.

(** X5: when the transformation completes, the entry dates of the events
    that are no test records either all parse or all fail to parse: line 52
    completes on no other input. *)
Theorem transform_dates_agree (raw : list event) (sms : list mapping) (T : list row) :
  transform raw sms = Ok T ->
  forall e1 e2, In e1 raw -> In e2 raw ->
    name_is_test (Name e1) = false -> name_is_test (Name e2) = false ->
    (to_datetime (Date_of_entry e1) = None <-> to_datetime (Date_of_entry e2) = None).
Proof.
  intros H e1 e2 H1 H2 N1 N2.
  apply (transform_keeps _ _ _ H) in H1; [|exact N1].
  apply (transform_keeps _ _ _ H) in H2; [|exact N2].
  apply in_map_iff in H1 as (r1 & <- & Hr1). apply in_map_iff in H2 as (r2 & <- & Hr2).
  destruct (transform_row _ _ _ H r1 Hr1) as (_ & _ & _ & <- & _).
  destruct (transform_row _ _ _ H r2 Hr2) as (_ & _ & _ & <- & _).
  destruct (transform_dates_uniform _ _ _ H) as [Hnone|Hall].
  - rewrite (Hnone r1 Hr1), (Hnone r2 Hr2). tauto.
  - pose proof (Hall r1 Hr1). pose proof (Hall r2 Hr2). tauto.
Qed.

(** C4 (the code departs from the claim): not every record gets a month
    name.  When lines 29-32 complete and, among the events that are no test
    records, the entry date of one parses and the entry date of another does
    not, the script stops on line 52 with a TypeError: the month column is
    then float64, and the lambda indexes [calendar.month_name] with a float
    for the records that do have a date. *)
Theorem mixed_dates_raise (raw : list event) (sms : list mapping)
        (df1 : list (event * option Z)) (e1 e2 : event) (d : date) :
  load_events raw = Ok df1 ->
  In e1 raw -> In e2 raw ->
  name_is_test (Name e1) = false -> name_is_test (Name e2) = false ->
  to_datetime (Date_of_entry e1) = Some d ->
  to_datetime (Date_of_entry e2) = None ->
  transform raw sms = Raise TypeError.
Proof.
  intros H H1 H2 N1 N2 D1 D2.
  destruct (transform raw sms) as [T|e] eqn:E.
  - apply (transform_keeps _ _ _ E) in H1; [|exact N1].
    apply (transform_keeps _ _ _ E) in H2; [|exact N2].
    apply in_map_iff in H1 as (r1 & <- & Hr1).
    apply in_map_iff in H2 as (r2 & <- & Hr2).
    destruct (transform_row _ _ _ E r1 Hr1) as (_ & _ & _ & F1 & _).
    destruct (transform_row _ _ _ E r2 Hr2) as (_ & _ & _ & F2 & _).
    rewrite D1 in F1. rewrite D2 in F2.
    destruct (transform_dates_uniform _ _ _ E) as [Hnone|Hall].
    + rewrite (Hnone r1 Hr1) in F1. discriminate F1.
    + destruct (Hall r2 Hr2 F2).
  - unfold transform in E. rewrite H in E. cbn [bind] in E.
    apply mapM_Raise_inv in E as (x & _ & E).
    apply enrich_Raise in E as (-> & _). reflexivity.
Qed.

(** ** Lines 30-31 complete on small numbers *)

(** X16: lines 30-31 complete when the material column is empty or has a
    text cell, and the first bracketed digit run of every material text
    denotes an integer of at most 2^53. *)
Theorem derive_codes_completes (raw : list event) :
  (raw = [] \/ exists e s, In e raw /\ Material e = Some s) ->
  (forall e s d, In e raw -> Material e = Some s ->
                 first_bracketed (codepoints s) d -> Z_of_digits d <= 2 ^ 53) ->
  exists df, derive_codes raw = Ok df.
Proof.
  intros Htext Hsmall. unfold derive_codes.
  assert (Ha : str_accessor (map Material raw) = Ok tt).
  { apply str_accessor_Ok. destruct Htext as [->|(e & s & He & Hs)]; [now left|].
    right. exists s. rewrite <- Hs. now apply in_map. }
  rewrite Ha. cbn [bind]. clear Ha Htext.
  set (g := fun e => astype_float (str_extract (Material e))).
  assert (Hg : forall e, In e raw ->
                 g e = fNaN \/ exists n, g e = fInt n /\ n <= 2 ^ 53).
  { intros e He. unfold g, str_extract. destruct (Material e) as [s|] eqn:Es; [|now left].
    destruct (re_search (codepoints s)) as [d|] eqn:Ed; [|now left].
    apply re_search_spec in Ed. pose proof (Hsmall e s d He Es Ed) as Hn.
    cbn [astype_float]. rewrite (round_to_double_exact _ Hn). eauto. }
  assert (H53 : 2 ^ 53 < 2 ^ 63) by (apply Z.pow_lt_mono_r; lia).
  assert (Hok : forall e, In e raw -> is_inf (g e) = false
                                      /\ exists pc, astype_Int64 (g e) = Ok pc).
  { intros e He. destruct (Hg e He) as [->|(n & -> & Hn)]; cbn.
    - eauto.
    - destruct (Z.ltb_spec n (2 ^ 63)); [eauto|lia]. }
  unfold astype_Int64_column. rewrite existsb_map, mapM_map. cbv beta.
  fold g. clear Hg Hsmall.
  induction raw as [|e raw IH]; cbn [existsb mapM]; [simpl; eauto|].
  destruct (Hok e (or_introl eq_refl)) as (-> & pc & ->). cbn [orb bind].
  destruct IH as (df & IH); [intros; apply Hok; now right|].
  destruct (existsb (fun a => is_inf (g a)) raw); [discriminate IH|].
  destruct (mapM (fun a => astype_Int64 (g a)) raw) as [codes|]; [|discriminate IH].
  cbn. eauto.
Qed.

(** ** A fallback subset without a cluster (lines 92-104) *)

Lemma values_none (col : row -> option string) (df : list row) :
  (forall r, In r df -> col r = None) -> values col df = [].
Proof.
  intros H. destruct (values col df) as [|v l] eqn:E; [reflexivity|].
  assert (Hv : In v (values col df)) by (rewrite E; now left).
  apply values_In in Hv as (r & Hr & Hc). rewrite (H r Hr) in Hc. discriminate Hc.
Qed.

(** X17: when the transformation completes and the selected fallback subset
    is not empty but none of its records has a cluster, the cluster table
    has no rows and the script stops at the chart of line 97 with a
    ValueError. *)
Theorem run_without_cluster (observed : bool) (raw : list event) (sms : list mapping)
        (orgs months : list string) (T : list row) :
  transform raw sms = Ok T ->
  df_gpn (filtered_df orgs months T) <> [] ->
  (forall r, In r (df_gpn (filtered_df orgs months T)) -> Groups r = None) ->
  run observed raw sms orgs months = Raise ValueError.
Proof.
  intros H Hne Hnone. unfold run. rewrite H. cbn [bind].
  unfold render. cbn [chart2 chart3].
  assert (E : unless_empty (df_gpn (filtered_df orgs months T)) (pivot_cluster observed)
              = Some (pivot_cluster observed (df_gpn (filtered_df orgs months T)))).
  { unfold unless_empty. destruct (df_gpn (filtered_df orgs months T)); [now destruct Hne|].
    reflexivity. }
  rewrite E. unfold pivot_cluster. rewrite by_month_table.
  rewrite (plain_levels_filtered observed Groups _ (df_gpn_month orgs months T)).
  rewrite (values_none Groups _ Hnone). reflexivity.
Qed.

End Library.

(** * Sample runs

    The runs below are on the decimal digits of Unicode 14 and on
    nanosecond timestamps. *)

(** ** Category extraction *)

(** C1, as stated, fails: a bracketed run of sixteen digits goes through
    float64 and comes back as another integer. *)
Lemma category_extraction_counterexample :
  derive_codes unicode_14_blocks [relay_event]
  = Ok [(relay_event, Some 9007199254740992)]
  /\ Material relay_event = Some "Relay [9007199254740993]"
  /\ first_bracketed unicode_14_blocks (codepoints "Relay [9007199254740993]")
                     (codepoints "9007199254740993")
  /\ Z_of_digits unicode_14_blocks (codepoints "9007199254740993") = 9007199254740993
  /\ 9007199254740992 <> 9007199254740993.
Proof.
  split; [vm_compute; reflexivity|]. split; [reflexivity|].
  split; [apply re_search_spec; vm_compute; reflexivity|].
  split; [vm_compute; reflexivity|]. discriminate.
Qed.

Lemma category_extraction_witness :
  derive_codes unicode_14_blocks [arabic_event; relay_event]
  = Ok [(arabic_event, Some 12); (relay_event, Some 9007199254740992)]
  /\ first_bracketed unicode_14_blocks
                     (codepoints ("Cable [" ++ utf8 [217; 161; 217; 162] ++ "]"))
                     [1633; 1634]
  /\ Z_of_digits unicode_14_blocks [1633; 1634] <= 2 ^ 53
  /\ Some 12 = Some (Z_of_digits unicode_14_blocks [1633; 1634]).
Proof.
  assert (H : derive_codes unicode_14_blocks [arabic_event; relay_event]
              = Ok [(arabic_event, Some 12); (relay_event, Some 9007199254740992)])
    by (vm_compute; reflexivity).
  assert (Hd : first_bracketed unicode_14_blocks
                 (codepoints ("Cable [" ++ utf8 [217; 161; 217; 162] ++ "]"))
                 [1633; 1634])
    by (apply re_search_spec; vm_compute; reflexivity).
  assert (B : Z_of_digits unicode_14_blocks [1633; 1634] <= 2 ^ 53)
    by (vm_compute; discriminate).
  split; [exact H|]. split; [exact Hd|]. split; [exact B|].
  exact (proj1 (proj2 (category_extraction unicode_14_blocks _ _ H)
                      arabic_event (Some 12) (or_introl eq_refl))
               _ _ eq_refl Hd B).
Defined.

Lemma derive_codes_completes_witness :
  exists df, derive_codes unicode_14_blocks [unmatched_event] = Ok df.
Proof.
  apply derive_codes_completes.
  - right. exists unmatched_event, "Valve [77]". split; [left|]; reflexivity.
  - intros e s d [<-|[]] Hs Hd. injection Hs as <-.
    apply re_search_spec in Hd. vm_compute in Hd. injection Hd as <-.
    vm_compute. discriminate.
Defined.

Lemma oversized_code_raises_witness :
  transform unicode_14_blocks true oversized_events example_mapping = Raise TypeError
  /\ transform unicode_14_blocks true overflowing_events example_mapping
     = Raise OverflowError.
Proof.
  split.
  - assert (E : existsb (fun e => is_inf (astype_float unicode_14_blocks
                                            (str_extract unicode_14_blocks (Material e))))
                        oversized_events = false) by (vm_compute; reflexivity).
    pose proof (oversized_code_raises unicode_14_blocks true oversized_events example_mapping
                  {| Material := Some "Dummy [18446744073709551616]"; Name := Some "test";
                     Organization := Some "Acme"; Date_of_entry := DText "02/03/2024" |}
                  "Dummy [18446744073709551616]" (codepoints "18446744073709551616")) as H.
    rewrite E in H. apply H.
    + right. left. reflexivity.
    + reflexivity.
    + apply re_search_spec. vm_compute. reflexivity.
    + vm_compute. discriminate.
  - vm_compute. reflexivity.
Defined.

(** ** The transformed table *)

Lemma organization_normalization_witness :
  transform unicode_14_blocks true example_events example_mapping = Ok [example_row]
  /\ Organization (source example_row) = Some "Acme"
  /\ Organization1 example_row = Some "Phoenix Contact - GPN".
Proof.
  assert (H : transform unicode_14_blocks true example_events example_mapping
              = Ok [example_row]) by (vm_compute; reflexivity).
  split; [exact H|]. split; [reflexivity|].
  apply (proj2 (organization_normalization unicode_14_blocks true _ _ _ H
                  example_row (or_introl eq_refl))).
  intros s E. injection E as <-. split; discriminate.
Defined.

Lemma test_record_exclusion_witness :
  let e := {| Material := Some "Gadget [99]"; Name := Some "TestRun";
              Organization := Some "Acme"; Date_of_entry := DText "15/03/2024" |} in
  transform unicode_14_blocks true example_events example_mapping = Ok [example_row]
  /\ In e example_events
  /\ mentions_test "TestRun"
  /\ ~ In e (map source [example_row]).
Proof.
  intros e.
  assert (H : transform unicode_14_blocks true example_events example_mapping
              = Ok [example_row]) by (vm_compute; reflexivity).
  assert (Hin : In e example_events) by (right; left; reflexivity).
  assert (Ht : mentions_test "TestRun") by (exists "", "Test", "Run"; split; reflexivity).
  split; [exact H|]. split; [exact Hin|]. split; [exact Ht|].
  exact (proj1 (test_record_exclusion unicode_14_blocks true _ _ _ H e Hin)
               "TestRun" eq_refl Ht).
Defined.


(** ** Entry dates and month names *)

Lemma mixed_dates_raise_witness :
  transform unicode_14_blocks true mixed_events example_mapping = Raise TypeError.
Proof.
  eapply (mixed_dates_raise unicode_14_blocks true mixed_events example_mapping _
            {| Material := Some "Widget [12]"; Name := Some "Prod";
               Organization := Some "Acme"; Date_of_entry := DText "01/03/2024" |}
            {| Material := Some "Pump [40]"; Name := Some "Pump";
               Organization := Some "Acme"; Date_of_entry := DText "2024-03-01" |}
            {| dt_year := 2024; dt_month := 3; dt_day := 1 |}).
  - vm_compute. reflexivity.
  - left. reflexivity.
  - right. left. reflexivity.
  - vm_compute. reflexivity.
  - vm_compute. reflexivity.
  - vm_compute. reflexivity.
  - vm_compute. reflexivity.
Defined.

Lemma month_name_derivation_witness :
  transform unicode_14_blocks true example_events example_mapping = Ok [example_row]
  /\ month_name example_row = Some "March"
  /\ transform unicode_14_blocks true [unparsed_event] example_mapping = Ok [unparsed_row]
  /\ month_label unparsed_row = ""
  /\ month_name unparsed_row = None.
Proof.
  assert (H : transform unicode_14_blocks true example_events example_mapping
              = Ok [example_row]) by (vm_compute; reflexivity).
  assert (H' : transform unicode_14_blocks true [unparsed_event] example_mapping
               = Ok [unparsed_row]) by (vm_compute; reflexivity).
  split; [exact H|]. split.
  - exact (proj1 (proj1 (month_name_derivation unicode_14_blocks true _ _ _ H
                           example_row (or_introl eq_refl))
                        _ eq_refl)).
  - split; [exact H'|].
    exact (proj1 (proj2 (month_name_derivation unicode_14_blocks true _ _ _ H'
                           unparsed_row (or_introl eq_refl)))
                 eq_refl).
Defined.

Lemma transform_dates_agree_witness :
  transform unicode_14_blocks true [relay_event; arabic_event] example_mapping
  = Ok [ {| source := relay_event; PC := Some 9007199254740992; Groups := None;
            entry_date := Some {| dt_year := 2024; dt_month := 3; dt_day := 1 |};
            Organization1 := Some GPN; month := PyInt 3; month_label := "March";
            month_name := Some "March" |};
         {| source := arabic_event; PC := Some 12; Groups := Some "ClusterA";
            entry_date := Some {| dt_year := 2024; dt_month := 3; dt_day := 1 |};
            Organization1 := Some GPN; month := PyInt 3; month_label := "March";
            month_name := Some "March" |} ]
  /\ (to_datetime unicode_14_blocks true (Date_of_entry relay_event) = None
      <-> to_datetime unicode_14_blocks true (Date_of_entry arabic_event) = None).
Proof.
  split; [vm_compute; reflexivity|].
  eapply (transform_dates_agree unicode_14_blocks true [relay_event; arabic_event]
            example_mapping).
  - vm_compute. reflexivity.
  - left. reflexivity.
  - right. left. reflexivity.
  - reflexivity.
  - reflexivity.
Defined.

Lemma filtered_months_not_null_witness :
  transform unicode_14_blocks true example_events example_mapping = Ok [example_row]
  /\ In example_row (filtered_df [GPN] month_order [example_row])
  /\ entry_date example_row <> None.
Proof.
  assert (H : transform unicode_14_blocks true example_events example_mapping
              = Ok [example_row]) by (vm_compute; reflexivity).
  assert (Hin : In example_row (filtered_df [GPN] month_order [example_row]))
    by (vm_compute; left; reflexivity).
  split; [exact H|]. split; [exact Hin|].
  exact (proj2 (proj1 (filtered_months_not_null unicode_14_blocks true _ _ _ H
                         [GPN] month_order)
                      example_row Hin)).
Defined.

(** ** Selections, charts and tables *)

Lemma normalized_groups_witness :
  transform unicode_14_blocks true example_events example_mapping = Ok [example_row]
  /\ default_orgs [example_row] = ["Phoenix Contact - GPN"]
  /\ (List.length (default_orgs [example_row]) <= 3)%nat.
Proof.
  assert (H : transform unicode_14_blocks true example_events example_mapping
              = Ok [example_row]) by (vm_compute; reflexivity).
  split; [exact H|]. split; [vm_compute; reflexivity|].
  exact (proj2 (proj2 (proj2 (normalized_groups unicode_14_blocks true _ _ _ H)))).
Defined.

Lemma default_selection_witness :
  transform unicode_14_blocks true example_events example_mapping = Ok [example_row]
  /\ filtered_df (default_orgs [example_row]) month_order [example_row] = [example_row].
Proof.
  assert (H : transform unicode_14_blocks true example_events example_mapping
              = Ok [example_row]) by (vm_compute; reflexivity).
  split; [exact H|]. exact (default_selection unicode_14_blocks true _ _ _ H).
Defined.

Lemma counts_add_up_witness :
  transform unicode_14_blocks true example_events example_mapping = Ok [example_row]
  /\ counts_total (chart1 (render false [example_row] [GPN] month_order)) = 1%nat.
Proof.
  assert (H : transform unicode_14_blocks true example_events example_mapping
              = Ok [example_row]) by (vm_compute; reflexivity).
  split; [exact H|].
  exact (proj1 (counts_add_up unicode_14_blocks true false _ _ _ [GPN] month_order H)).
Defined.

Lemma subset_totals_witness :
  transform unicode_14_blocks true [unmatched_event] example_mapping = Ok [unmatched_row]
  /\ grand_total (pivot_cluster false (df_gpn (filtered_df [GPN] month_order [unmatched_row])))
     = 0%nat.
Proof.
  assert (H : transform unicode_14_blocks true [unmatched_event] example_mapping
              = Ok [unmatched_row]) by (vm_compute; reflexivity).
  split; [exact H|].
  exact (proj1 (subset_totals unicode_14_blocks true false _ _ _ [GPN] month_order H)).
Defined.

Lemma fallback_subset_organizations_witness :
  transform unicode_14_blocks true example_events example_mapping = Ok [example_row]
  /\ ct_index (pivot_org false (df_gpn (filtered_df [GPN] month_order [example_row])))
     = ["Acme"]
  /\ ~ In "Acme" keep_values.
Proof.
  assert (H : transform unicode_14_blocks true example_events example_mapping
              = Ok [example_row]) by (vm_compute; reflexivity).
  assert (E : ct_index (pivot_org false (df_gpn (filtered_df [GPN] month_order [example_row])))
              = ["Acme"]) by (vm_compute; reflexivity).
  split; [exact H|]. split; [exact E|].
  refine (proj1 (proj2 (fallback_subset_organizations unicode_14_blocks true false _ _ _
                          [GPN] month_order H)
                       "Acme" _)).
  rewrite E. left. reflexivity.
Defined.

(** C3, as stated, fails: a record of the fallback subset whose cluster is
    null is in no row of the table; here the table has no row at all. *)
Lemma cluster_by_month_counterexample :
  transform unicode_14_blocks true [unmatched_event] example_mapping = Ok [unmatched_row]
  /\ df_gpn (filtered_df [GPN] month_order [unmatched_row]) = [unmatched_row]
  /\ Groups unmatched_row = None
  /\ ct_index (pivot_cluster false [unmatched_row]) = []
  /\ ct_cells (pivot_cluster false [unmatched_row]) = []
  /\ ct_index (pivot_cluster true [unmatched_row]) = []
  /\ ct_cells (pivot_cluster true [unmatched_row]) = [].
Proof. repeat split; vm_compute; reflexivity. Qed.

Lemma run_without_cluster_witness :
  run unicode_14_blocks true false [unmatched_event] example_mapping [GPN] month_order
  = Raise ValueError.
Proof.
  apply (run_without_cluster unicode_14_blocks true false [unmatched_event] example_mapping
           [GPN] month_order [unmatched_row]).
  - vm_compute. reflexivity.
  - vm_compute. discriminate.
  - intros r Hr. vm_compute in Hr. destruct Hr as [<-|[]]. reflexivity.
Defined.
